(** * feng: connection life cycle and liveness supervision

    A shallow embedding of [src/network/rtsp_client.c] (feng 2.1.0_rc1, with
    the TRISOS process-per-connection extension) and the properties of its
    callbacks: admission, client set-up, the disconnect handler, the RTP
    session timeout check and the child reaper.

    The C callbacks run on one libev loop, each to completion.  A callback
    is embedded as a computation over the process state [world] that may be
    undefined (a dereference of a freed or NULL record) and that reports,
    in order, the library and collaborator calls it makes. *)

From stdpp Require Import gmap list strings.
From Stdlib Require Import ZArith.
From Equations Require Import Equations.

Local Open Scope string_scope.
Local Open Scope Z_scope.
Local Open Scope list_scope.

(** ** Constants of the translation unit *)

Definition LIVE_STREAM_BYE_TIMEOUT : Z := 6.
Definition STREAM_TIMEOUT : Z := 12.

(** [#ifdef TRISOS] selects the process-per-connection build, which is also
    the build with the RTCP heartbeat. *)
Variant build := Cooperative | TRISOS.

(** ** Data *)

Variant media_source_t := MS_stored | MS_live.
Variant rtcp_pkt_type := SR | RR | SDES | BYE | APP.
Variant callback :=
  rtsp_read_cb | rtsp_write_cb | client_ev_disconnect_handler_cb
  | client_ev_timeout_cb | timer_watcher_cb_cb.
Variant io_events := EV_READ | EV_WRITE.

Global Instance media_source_eq_dec : EqDecision media_source_t.
Proof. solve_decision. Defined.
Global Instance rtcp_pkt_type_eq_dec : EqDecision rtcp_pkt_type.
Proof. solve_decision. Defined.
Global Instance callback_eq_dec : EqDecision callback.
Proof. solve_decision. Defined.
Global Instance io_events_eq_dec : EqDecision io_events.
Proof. solve_decision. Defined.

(** Records allocated by the program are named by their address. *)
Abbreviation addr := nat (only parsing).

(** libev watchers.  [*_active] is libev's own flag: the loop only invokes
    the callback of an active watcher. *)
Record ev_io := {
  io_cb : option callback; io_data : option addr;
  io_fd : Z; io_events_of : option io_events; io_active : bool }.
Record ev_async := {
  async_cb : option callback; async_data : option addr;
  async_sent : bool; async_active : bool }.
Record ev_timer := {
  timer_cb : option callback; timer_data : option addr;
  timer_repeat : Z; timer_active : bool }.

(** What [g_slice_new0] leaves in a watcher. *)
Definition ev_io_zero : ev_io :=
  {| io_cb := None; io_data := None; io_fd := 0; io_events_of := None;
     io_active := false |}.
Definition ev_async_zero : ev_async :=
  {| async_cb := None; async_data := None; async_sent := false;
     async_active := false |}.
Definition ev_timer_zero : ev_timer :=
  {| timer_cb := None; timer_data := None; timer_repeat := 0;
     timer_active := false |}.

Record Sock := { sock_handle : addr; Sock_fd : Z }.
Global Instance Sock_eq_dec : EqDecision Sock.
Proof. solve_decision. Defined.

(** A [GString *] of the output queue, by address. *)
Abbreviation GString := nat (only parsing).

(** The fields of [RTP_session] the file reads.  [rtp_client] is the
    [session->client] back pointer. *)
Record RTP_session := {
  rtp_addr : addr;
  rtp_client : addr;
  media_source : media_source_t;        (* track->properties.media_source *)
  last_packet_send_time : Z;
  last_rtcp_read_time : Z;
  isBye : Z }.

Global Instance RTP_session_eq_dec : EqDecision RTP_session.
Proof. solve_decision. Defined.

Record RTSP_session := { rtp_sessions : list RTP_session }.
Global Instance RTSP_session_eq_dec : EqDecision RTSP_session.
Proof. solve_decision. Defined.

(** [out_queue] is the GQueue, head first. *)
Record RTSP_Client := {
  sock : Sock;
  input : list Z;
  out_queue : list GString;
  session : option RTSP_session;
  ev_io_read : ev_io;
  ev_io_write : ev_io;
  ev_sig_disconnect : ev_async;
  ev_timeout : ev_timer }.

(** TRISOS: the tracking record of a forked child. *)
Record client_port_pair := { cpp_pid : Z; cpp_port : Z }.
Global Instance client_port_pair_eq_dec : EqDecision client_port_pair.
Proof. solve_decision. Defined.

Record feng := {
  connection_count : Z;
  rtcp_heartbeat : Z;                   (* srvconf.rtcp_heartbeat *)
  loop_timer : ev_timer }.

(** The state of one process. *)
Record world := {
  srv : feng;
  clients : gmap nat RTSP_Client;       (* live RTSP_Client records *)
  next_client : addr;                   (* next address of g_slice_new0 *)
  client_list : list client_port_pair;  (* TRISOS: children being tracked *)
  running : list positive;              (* pids of the children still running *)
  zombies : list positive;              (* terminated children not waited for,
                                           in the order waitpid reports them *)
  exit_status : option Z }.             (* set by exit() *)

(** ** Calls the callbacks make, as they are observed *)

Variant log_level := FNC_LOG_INFO.
Global Instance log_level_eq_dec : EqDecision log_level.
Proof. solve_decision. Defined.

Inductive action :=
| Ev_io_start (rtsp : addr) (e : io_events)
| Ev_io_stop (rtsp : addr) (e : io_events)
| Ev_async_start (rtsp : addr)
| Ev_async_stop (rtsp : addr)
| Ev_async_send (rtsp : addr)
| Ev_timer_stop (rtsp : addr)
| Ev_timer_again (rtsp : addr)
| Ev_loop_timer_again
| Ev_loop_timer_stop
| Close_Sock (s : Sock)
| Connection_count_inc
| Connection_count_dec
| Rtsp_session_free (s : option RTSP_session)
| Interleaved_free_list (rtsp : addr)
| G_string_free (b : GString)
| G_queue_free (rtsp : addr)
| G_byte_array_free (rtsp : addr)
| G_slice_free (rtsp : addr)
| G_slice_new0 (rtsp : addr)
| Fnc_log (l : log_level) (msg : string)
| Rtcp_send_sr (session : addr) (t : rtcp_pkt_type)
| Waitpid (ret : Z)
| Fork (ret : Z)
| New_child_port (c : option client_port_pair)
| Sock_accept (s : option Sock)
| Reduce_client_list (c : client_port_pair)
| Free_child_port (c : client_port_pair)
| Add_client_list (c : client_port_pair)
| Feng_ports_cleanup
| Sleep (seconds : Z)
| Exit (status : Z).

Global Instance action_eq_dec : EqDecision action.
Proof. solve_decision. Defined.

(** ** Field updates *)

Definition set_connection_count (n : Z) (s : feng) : feng :=
  {| connection_count := n; rtcp_heartbeat := rtcp_heartbeat s;
     loop_timer := loop_timer s |}.
Definition set_loop_timer (t : ev_timer) (s : feng) : feng :=
  {| connection_count := connection_count s;
     rtcp_heartbeat := rtcp_heartbeat s; loop_timer := t |}.

Definition set_srv (s : feng) (w : world) : world :=
  {| srv := s; clients := clients w; next_client := next_client w;
     client_list := client_list w; running := running w;
     zombies := zombies w;
     exit_status := exit_status w |}.
Definition set_clients (m : gmap nat RTSP_Client) (w : world) : world :=
  {| srv := srv w; clients := m; next_client := next_client w;
     client_list := client_list w; running := running w;
     zombies := zombies w;
     exit_status := exit_status w |}.
Definition set_next_client (n : addr) (w : world) : world :=
  {| srv := srv w; clients := clients w; next_client := n;
     client_list := client_list w; running := running w;
     zombies := zombies w;
     exit_status := exit_status w |}.
Definition set_client_list (l : list client_port_pair) (w : world) : world :=
  {| srv := srv w; clients := clients w; next_client := next_client w;
     client_list := l; running := running w; zombies := zombies w;
     exit_status := exit_status w |}.
Definition set_children (r z : list positive) (w : world) : world :=
  {| srv := srv w; clients := clients w; next_client := next_client w;
     client_list := client_list w; running := r; zombies := z;
     exit_status := exit_status w |}.
Definition set_exit_status (e : option Z) (w : world) : world :=
  {| srv := srv w; clients := clients w; next_client := next_client w;
     client_list := client_list w; running := running w;
     zombies := zombies w; exit_status := e |}.

Definition set_out_queue (q : list GString) (c : RTSP_Client) : RTSP_Client :=
  {| sock := sock c; input := input c; out_queue := q; session := session c;
     ev_io_read := ev_io_read c; ev_io_write := ev_io_write c;
     ev_sig_disconnect := ev_sig_disconnect c; ev_timeout := ev_timeout c |}.
Definition set_ev_io_read (x : ev_io) (c : RTSP_Client) : RTSP_Client :=
  {| sock := sock c; input := input c; out_queue := out_queue c;
     session := session c; ev_io_read := x; ev_io_write := ev_io_write c;
     ev_sig_disconnect := ev_sig_disconnect c; ev_timeout := ev_timeout c |}.
Definition set_ev_io_write (x : ev_io) (c : RTSP_Client) : RTSP_Client :=
  {| sock := sock c; input := input c; out_queue := out_queue c;
     session := session c; ev_io_read := ev_io_read c; ev_io_write := x;
     ev_sig_disconnect := ev_sig_disconnect c; ev_timeout := ev_timeout c |}.
Definition set_ev_sig_disconnect (x : ev_async) (c : RTSP_Client)
  : RTSP_Client :=
  {| sock := sock c; input := input c; out_queue := out_queue c;
     session := session c; ev_io_read := ev_io_read c;
     ev_io_write := ev_io_write c; ev_sig_disconnect := x;
     ev_timeout := ev_timeout c |}.
Definition set_ev_timeout (x : ev_timer) (c : RTSP_Client) : RTSP_Client :=
  {| sock := sock c; input := input c; out_queue := out_queue c;
     session := session c; ev_io_read := ev_io_read c;
     ev_io_write := ev_io_write c;
     ev_sig_disconnect := ev_sig_disconnect c; ev_timeout := x |}.

(** The two [ev_io] members of a client, selected as in
    [&rtsp->ev_io_read] and [&rtsp->ev_io_write]. *)
Definition get_io (e : io_events) (c : RTSP_Client) : ev_io :=
  match e with EV_READ => ev_io_read c | EV_WRITE => ev_io_write c end.
Definition set_io (e : io_events) (x : ev_io) (c : RTSP_Client)
  : RTSP_Client :=
  match e with
  | EV_READ => set_ev_io_read x c
  | EV_WRITE => set_ev_io_write x c
  end.

(** ** Callbacks as computations

    A computation takes the state and is either undefined or gives a
    result, the next state and the calls made, oldest first. *)

Definition M (A : Type) : Type := world → option (A * world * list action).

Global Instance M_ret : MRet M := λ A a w, Some (a, w, []).
Global Instance M_bind : MBind M := λ A B k m w,
  match m w with
  | None => None
  | Some (a, w1, l1) =>
      match k a w1 with
      | None => None
      | Some (b, w2, l2) => Some (b, w2, l1 ++ l2)
      end
  end.

Definition undefined {A} : M A := λ _, None.
Definition emit (a : action) : M unit := λ w, Some ((), w, [a]).
Definition get_world : M world := λ w, Some (w, w, []).
Definition modify_world (f : world → world) : M unit :=
  λ w, Some ((), f w, []).
Definition when (b : bool) (m : M unit) : M unit :=
  if b then m else mret ().

(** [*rtsp]: undefined once the record has been released. *)
Definition deref (rtsp : addr) : M RTSP_Client := λ w,
  match clients w !! rtsp with
  | Some c => Some (c, w, [])
  | None => None
  end.
Definition modify_client (rtsp : addr) (f : RTSP_Client → RTSP_Client)
  : M unit :=
  c ← deref rtsp;
  modify_world (λ w, set_clients (<[rtsp := f c]> (clients w)) w).

(** ** libev

    The watcher operations, as libev documents them.  Each takes the client
    whose member is the watcher; a call on a released record is
    undefined. *)

Definition ev_io_init (rtsp : addr) (io : io_events) (cb : callback)
    (fd : Z) (events : io_events) : M unit :=
  modify_client rtsp (λ c,
    set_io io {| io_cb := Some cb; io_data := io_data (get_io io c);
                 io_fd := fd; io_events_of := Some events;
                 io_active := false |} c).

Definition set_io_data (rtsp : addr) (io : io_events) (d : addr) : M unit :=
  modify_client rtsp (λ c,
    let x := get_io io c in
    set_io io {| io_cb := io_cb x; io_data := Some d; io_fd := io_fd x;
                 io_events_of := io_events_of x;
                 io_active := io_active x |} c).

Definition set_io_active (a : bool) (x : ev_io) : ev_io :=
  {| io_cb := io_cb x; io_data := io_data x; io_fd := io_fd x;
     io_events_of := io_events_of x; io_active := a |}.

Definition ev_io_start (rtsp : addr) (io : io_events) : M unit :=
  modify_client rtsp (λ c, set_io io (set_io_active true (get_io io c)) c);;
  emit (Ev_io_start rtsp io).

Definition ev_io_stop (rtsp : addr) (io : io_events) : M unit :=
  modify_client rtsp (λ c, set_io io (set_io_active false (get_io io c)) c);;
  emit (Ev_io_stop rtsp io).

Definition set_async_data (rtsp : addr) (d : addr) : M unit :=
  modify_client rtsp (λ c,
    let x := ev_sig_disconnect c in
    set_ev_sig_disconnect
      {| async_cb := async_cb x; async_data := Some d;
         async_sent := async_sent x; async_active := async_active x |} c).

Definition ev_async_init (rtsp : addr) (cb : callback) : M unit :=
  modify_client rtsp (λ c,
    let x := ev_sig_disconnect c in
    set_ev_sig_disconnect
      {| async_cb := Some cb; async_data := async_data x;
         async_sent := false; async_active := false |} c).

(** Starting an active watcher does nothing; starting clears [sent]. *)
Definition ev_async_start (rtsp : addr) : M unit :=
  modify_client rtsp (λ c,
    let x := ev_sig_disconnect c in
    if async_active x then c
    else set_ev_sig_disconnect
           {| async_cb := async_cb x; async_data := async_data x;
              async_sent := false; async_active := true |} c);;
  emit (Ev_async_start rtsp).

(** Stopping takes the watcher out of the loop, whatever is pending on it. *)
Definition ev_async_stop (rtsp : addr) : M unit :=
  modify_client rtsp (λ c,
    let x := ev_sig_disconnect c in
    set_ev_sig_disconnect
      {| async_cb := async_cb x; async_data := async_data x;
         async_sent := async_sent x; async_active := false |} c);;
  emit (Ev_async_stop rtsp).

(** [ev_async_send] only raises the watcher's [sent] flag (and wakes the
    loop): sends that are not yet served are not counted.  It writes to the
    watcher, hence is undefined on a released client. *)
Definition ev_async_send (rtsp : addr) : M unit :=
  modify_client rtsp (λ c,
    let x := ev_sig_disconnect c in
    set_ev_sig_disconnect
      {| async_cb := async_cb x; async_data := async_data x;
         async_sent := true; async_active := async_active x |} c);;
  emit (Ev_async_send rtsp).

Definition set_timer_data (d : addr) (x : ev_timer) : ev_timer :=
  {| timer_cb := timer_cb x; timer_data := Some d;
     timer_repeat := timer_repeat x; timer_active := timer_active x |}.
Definition set_timer_repeat (r : Z) (x : ev_timer) : ev_timer :=
  {| timer_cb := timer_cb x; timer_data := timer_data x;
     timer_repeat := r; timer_active := timer_active x |}.
Definition set_timer_active (a : bool) (x : ev_timer) : ev_timer :=
  {| timer_cb := timer_cb x; timer_data := timer_data x;
     timer_repeat := timer_repeat x; timer_active := a |}.

(** [ev_init]: the watcher is given its callback and is not active. *)
Definition ev_init_timer (cb : callback) (x : ev_timer) : ev_timer :=
  {| timer_cb := Some cb; timer_data := timer_data x;
     timer_repeat := timer_repeat x; timer_active := false |}.

(** [ev_timer_again]: (re)arms the timer with its [repeat] value when that
    is positive, and stops it otherwise. *)
Definition ev_timer_again_on (x : ev_timer) : ev_timer :=
  set_timer_active (bool_decide (0 < timer_repeat x)) x.

Definition ev_timer_again (rtsp : addr) : M unit :=
  modify_client rtsp (λ c, set_ev_timeout (ev_timer_again_on (ev_timeout c)) c);;
  emit (Ev_timer_again rtsp).

Definition ev_timer_stop (rtsp : addr) : M unit :=
  modify_client rtsp (λ c,
    set_ev_timeout (set_timer_active false (ev_timeout c)) c);;
  emit (Ev_timer_stop rtsp).

Definition modify_loop_timer (f : ev_timer → ev_timer) : M unit :=
  modify_world (λ w, set_srv (set_loop_timer (f (loop_timer (srv w))) (srv w)) w).

(** ** glib *)

(** [g_queue_pop_tail]: the last element of the queue and the queue without
    it, or nothing (NULL) on an empty queue.  The queue holds the addresses
    of allocated buffers, none of which is NULL. *)
Definition g_queue_pop_tail {A} (q : list A) : option (A * list A) :=
  match reverse q with
  | [] => None
  | x :: r => Some (x, reverse r)
  end.

Definition g_queue_push_head {A} (x : A) (q : list A) : list A := x :: q.

Definition g_string_free (b : GString) : M unit := emit (G_string_free b).
Definition g_queue_free (rtsp : addr) : M unit := emit (G_queue_free rtsp).
Definition g_byte_array_free (rtsp : addr) : M unit :=
  emit (G_byte_array_free rtsp).

(** [g_slice_free (RTSP_Client, rtsp)]: the record is gone. *)
Definition g_slice_free (rtsp : addr) : M unit :=
  _ ← deref rtsp;
  modify_world (λ w, set_clients (delete rtsp (clients w)) w);;
  emit (G_slice_free rtsp).

(** [g_slice_new0 (RTSP_Client)] followed by the assignments of the members
    that are not watchers: a record at a fresh address. *)
Definition g_slice_new0 (c : RTSP_Client) : M addr := λ w,
  let rtsp := next_client w in
  Some (rtsp,
        set_next_client (S rtsp) (set_clients (<[rtsp := c]> (clients w)) w),
        [G_slice_new0 rtsp]).

Fixpoint g_slist_foreach {A} (l : list A) (f : A → M unit) : M unit :=
  match l with
  | [] => mret ()
  | x :: l' => f x;; g_slist_foreach l' f
  end.

(** ** Collaborators outside this file, by the calls made to them *)

(** Modelled from the spec: [fnc_log] (fnc_log.h, missing) writes a log
    line; the format string stands for the line. *)
Definition fnc_log (l : log_level) (msg : string) : M unit :=
  emit (Fnc_log l msg).

(** [Sock_close] of the socket library closes the connection. *)
Definition Sock_close (s : Sock) : M unit := emit (Close_Sock s).

(** Modelled from the spec: [rtcp_send_sr] (network/rtcp.c, missing) emits
    the notification of the given kind on the session's control channel. *)
Definition rtcp_send_sr (session : RTP_session) (t : rtcp_pkt_type) : M unit :=
  emit (Rtcp_send_sr (rtp_addr session) t).

(** Modelled from the spec: [rtsp_session_free] (missing) frees every
    session the client owns. *)
Definition rtsp_session_free (s : option RTSP_session) : M unit :=
  emit (Rtsp_session_free s).

(** Modelled from the spec: [interleaved_free_list] (missing) releases the
    interleaved channels of the client; the spec does not name it. *)
Definition interleaved_free_list (rtsp : addr) : M unit :=
  emit (Interleaved_free_list rtsp).

(** [sleep] and [exit] of the C library; the process is over after
    [exit]. *)
Definition sleep (n : Z) : M unit := emit (Sleep n).
Definition exit (status : Z) : M unit :=
  modify_world (set_exit_status (Some status));; emit (Exit status).

(** ** The operating system: [fork] and [waitpid]

    [fork] is given its return value.  The parent gains a running child;
    the child starts without children of its own. *)
Definition fork (ret : Z) : M Z := λ w,
  Some (ret,
        match ret with
        | Zpos p => set_children (running w ++ [p]) (zombies w) w
        | Z0 => set_children [] [] w
        | Zneg _ => w
        end,
        [Fork ret]).

(** [waitpid (-1, NULL, WNOHANG)]: the pid of a terminated child, which is
    thereby forgotten; else 0 if children are running and -1 if there is no
    child. *)
Definition waitpid_any_nohang : M Z := λ w,
  match zombies w with
  | p :: z => Some (Zpos p, set_children (running w) z w, [Waitpid (Zpos p)])
  | [] =>
      let r := match running w with [] => -1 | _ :: _ => 0 end in
      Some (r, w, [Waitpid r])
  end.

(** ** The TRISOS child table (missing from the sources) *)

(** Modelled from the spec: [get_client_list_item] (missing) locates the
    tracking record of a process identifier. *)
Definition get_client_list_item (pid : Z) : M (option client_port_pair) :=
  w ← get_world;
  mret (List.find (λ c, bool_decide (cpp_pid c = pid)) (client_list w)).

Fixpoint remove_record (c : client_port_pair) (l : list client_port_pair)
  : list client_port_pair :=
  match l with
  | [] => []
  | x :: l' => if decide (x = c) then l' else x :: remove_record c l'
  end.

(** Modelled from the spec: [reduce_client_list] (missing) removes a
    tracking record from the table. *)
Definition reduce_client_list (c : client_port_pair) : M unit :=
  modify_world (λ w, set_client_list (remove_record c (client_list w)) w);;
  emit (Reduce_client_list c).

(** Modelled from the spec: [add_client_list] (missing) enters a tracking
    record in the table, which keeps the creation order. *)
Definition add_client_list (c : client_port_pair) : M unit :=
  modify_world (λ w, set_client_list (client_list w ++ [c]) w);;
  emit (Add_client_list c).

(** Modelled from the spec: [free_child_port] (missing) releases the
    reserved port pair of a record, and the record. *)
Definition free_child_port (c : client_port_pair) : M unit :=
  emit (Free_child_port c).

(** Modelled from the spec: [new_child_port] (missing) reserves a port pair
    and a tracking record, or fails; its outcome is given. *)
Definition new_child_port (r : option client_port_pair)
  : M (option client_port_pair) :=
  emit (New_child_port r);; mret r.

(** Modelled from the spec: [feng_ports_cleanup] (missing) is the port-pool
    clean-up the child disables for itself. *)
Definition feng_ports_cleanup : M unit := emit Feng_ports_cleanup.

Definition set_cpp_pid (pid : Z) (c : client_port_pair) : client_port_pair :=
  {| cpp_pid := pid; cpp_port := cpp_port c |}.

(** ** The output queue at teardown

    [while ((outbuf = g_queue_pop_tail (q))) g_string_free (outbuf, TRUE);]
    on the queue alone: the buffers in the order they are freed, and what
    is left in the queue. *)
Equations? drain_out_queue (q : list GString) : list GString * list GString
  by wf (length q) lt :=
  drain_out_queue q with Logic.inspect (g_queue_pop_tail q) => {
    | exist _ (Some (outbuf, q')) _ :=
        let r := drain_out_queue q' in (outbuf :: r.1, r.2);
    | exist _ None _ := ([], q) }.
Proof.
  unfold g_queue_pop_tail in e.
  destruct (reverse q) as [|x r] eqn:E; [done|].
  injection e as <- <-.
  rewrite <- (reverse_involutive q), E, !length_reverse. simpl. lia.
Qed.

(** ** The callbacks of [rtsp_client.c] *)

Section Callbacks.

(** [feng.h] is not among the sources.  The integer type it gives to
    [connection_count] enters through [count_t], the reduction of a
    mathematical integer to that type; the ceiling of connections per
    worker enters as a constant. *)
Variable count_t : Z → Z.
Variable ONE_FORK_MAX_CONNECTION : Z.

(** [srv->connection_count--] and [srv->connection_count++] *)
Definition decr (n : Z) : Z := count_t (n - 1).
Definition incr (n : Z) : Z := count_t (n + 1).

Definition connection_count_dec : M unit :=
  modify_world (λ w,
    set_srv (set_connection_count (decr (connection_count (srv w))) (srv w)) w);;
  emit Connection_count_dec.

Definition connection_count_inc : M unit :=
  modify_world (λ w,
    set_srv (set_connection_count (incr (connection_count (srv w))) (srv w)) w);;
  emit Connection_count_inc.

(** The loop over the output queue, on the client's queue. *)
Definition remove_output_queue (rtsp : addr) : M unit :=
  c ← deref rtsp;
  let r := drain_out_queue (out_queue c) in
  modify_client rtsp (set_out_queue r.2);;
  g_slist_foreach r.1 g_string_free.

(** [client_ev_disconnect_handler]; [w_data] is [w->data]. *)
Definition client_ev_disconnect_handler (b : build) (w_data : addr)
  : M unit :=
  let rtsp := w_data in
  ev_io_stop rtsp EV_READ;;
  ev_io_stop rtsp EV_WRITE;;
  ev_async_stop rtsp;;
  ev_timer_stop rtsp;;
  c ← deref rtsp;
  Sock_close (sock c);;
  connection_count_dec;;
  rtsp_session_free (session c);;
  interleaved_free_list rtsp;;
  remove_output_queue rtsp;;
  g_queue_free rtsp;;
  g_byte_array_free rtsp;;
  g_slice_free rtsp;;
  fnc_log FNC_LOG_INFO "[client] Client removed";;
  match b with
  | Cooperative => mret ()
  | TRISOS => sleep 1;; exit 0
  end.

(** [check_if_any_rtp_session_timedout]; [now] is what [time (NULL)]
    returns.  [time_t] is a signed type, whose subtraction does not wrap
    around: the differences are taken in Z. *)
Definition check_if_any_rtp_session_timedout (b : build)
    (session : RTP_session) (now : Z) : M unit :=
  when (bool_decide (media_source session = MS_live)
        && bool_decide (LIVE_STREAM_BYE_TIMEOUT ≤ now - last_packet_send_time session))
    (fnc_log FNC_LOG_INFO "[client] Soft stream timeout";;
     rtcp_send_sr session BYE);;
  match b with
  | Cooperative =>
      when (bool_decide (STREAM_TIMEOUT ≤ now - last_packet_send_time session))
        (fnc_log FNC_LOG_INFO "[client] Stream Timeout, client kicked off!";;
         ev_async_send (rtp_client session))
  | TRISOS =>
      if bool_decide (isBye session ≠ 0)
         && bool_decide (STREAM_TIMEOUT ≤ now - last_packet_send_time session)
      then
        fnc_log FNC_LOG_INFO "[client] Stream Timeout, client kicked off!";;
        ev_async_send (rtp_client session)
      else
        rtcp_send_sr session SDES;;
        w ← get_world;
        when (bool_decide (rtcp_heartbeat (srv w) ≠ 0)
              && bool_decide (60 ≤ now - last_rtcp_read_time session))
          (fnc_log FNC_LOG_INFO "[client] Client Lost Connection\n";;
           ev_async_send (rtp_client session))
  end.

(** [client_ev_timeout]; [rtsp->session] is NULL until a session is
    negotiated, and is dereferenced. *)
Definition client_ev_timeout (b : build) (w_data : addr) (now : Z)
  : M unit :=
  rtsp ← deref w_data;
  match session rtsp with
  | None => undefined
  | Some s =>
      g_slist_foreach (rtp_sessions s)
        (λ e, check_if_any_rtp_session_timedout b e now);;
      ev_timer_again w_data
  end.

(** The loop of [timer_watcher_cb].  Each turn consumes a terminated
    child, so [fuel] beyond their number is never used up. *)
Fixpoint reap_children (fuel : nat) : M unit :=
  match fuel with
  | O => undefined
  | S fuel' =>
      pid ← waitpid_any_nohang;
      if bool_decide (0 < pid) then
        client ← get_client_list_item pid;
        match client with
        | Some c =>
            reduce_client_list c;;
            connection_count_dec;;
            free_child_port c
        | None => mret ()
        end;;
        reap_children fuel'
      else mret ()
  end.

(** [timer_watcher_cb] *)
Definition timer_watcher_cb : M unit :=
  w ← get_world;
  reap_children (S (length (zombies w)));;
  modify_loop_timer ev_timer_again_on;;
  emit Ev_loop_timer_again.

(** [loop_timer_init]; the handler it installs for SIGCHLD does nothing. *)
Definition loop_timer_init : M unit :=
  modify_loop_timer (λ t,
    set_timer_repeat 5 (ev_init_timer timer_watcher_cb_cb t));;
  modify_loop_timer ev_timer_again_on;;
  emit Ev_loop_timer_again.

(** [loop_timer_uninit] *)
Definition loop_timer_uninit : M unit :=
  modify_loop_timer (set_timer_active false);;
  emit Ev_loop_timer_stop.

(** Lines 258 to 289 of [rtsp_client_incoming_cb]: the set-up of the
    client record, shared by the two builds. *)
Definition setup_client (client_sock : Sock) : M unit :=
  rtsp ← g_slice_new0
    {| sock := client_sock; input := []; out_queue := []; session := None;
       ev_io_read := ev_io_zero; ev_io_write := ev_io_zero;
       ev_sig_disconnect := ev_async_zero; ev_timeout := ev_timer_zero |};
  connection_count_inc;;
  set_io_data rtsp EV_READ rtsp;;
  ev_io_init rtsp EV_READ rtsp_read_cb (Sock_fd client_sock) EV_READ;;
  ev_io_start rtsp EV_READ;;
  set_io_data rtsp EV_WRITE rtsp;;
  ev_io_init rtsp EV_WRITE rtsp_write_cb (Sock_fd client_sock) EV_WRITE;;
  fnc_log FNC_LOG_INFO "Incoming RTSP connection accepted on socket: %d\n";;
  set_async_data rtsp rtsp;;
  ev_async_init rtsp client_ev_disconnect_handler_cb;;
  ev_async_start rtsp;;
  modify_client rtsp (λ c, set_ev_timeout (set_timer_data rtsp (ev_timeout c)) c);;
  modify_client rtsp (λ c,
    set_ev_timeout (ev_init_timer client_ev_timeout_cb (ev_timeout c)) c);;
  modify_client rtsp (λ c,
    set_ev_timeout (set_timer_repeat STREAM_TIMEOUT (ev_timeout c)) c);;
  fnc_log FNC_LOG_INFO "Connection reached: %d\n".

(** [rtsp_client_incoming_cb].  What the environment answers is given:
    [accepted] by [Sock_accept], [port] by [new_child_port] and
    [fork_ret] by [fork]. *)
Definition rtsp_client_incoming_cb (b : build) (accepted : option Sock)
    (port : option client_port_pair) (fork_ret : Z) : M unit :=
  emit (Sock_accept accepted);;
  match accepted with
  | None => mret ()
  | Some client_sock =>
      w ← get_world;
      if bool_decide (ONE_FORK_MAX_CONNECTION ≤ connection_count (srv w))
      then Sock_close client_sock
      else
        match b with
        | Cooperative => setup_client client_sock
        | TRISOS =>
            clients ← new_child_port port;
            match clients with
            | None => Sock_close client_sock
            | Some clients =>
                pid ← fork fork_ret;
                if bool_decide (pid = 0) then
                  free_child_port clients;;
                  loop_timer_uninit;;
                  feng_ports_cleanup;;
                  setup_client client_sock
                else if bool_decide (0 < pid) then
                  connection_count_inc;;
                  Sock_close client_sock;;
                  add_client_list (set_cpp_pid pid clients)
                else
                  Sock_close client_sock;;
                  free_child_port clients;;
                  fnc_log FNC_LOG_INFO "fork faild\n"
            end
        end
  end.

End Callbacks.

(** ** The producer of the output queue *)

(** Modelled from the spec: the function that queues an outbound buffer
    (missing) keeps the output queue in insertion order for the consumers,
    which take buffers with [g_queue_pop_tail]: it pushes at the head. *)
Definition enqueue (b : GString) (q : list GString) : list GString :=
  g_queue_push_head b q.

(** The queue after the buffers [bs] were queued in that order. *)
Definition enqueue_all (bs : list GString) (q : list GString)
  : list GString :=
  foldl (λ q b, enqueue b q) q bs.

(** ** The event loop

    What one worker process goes through: the loop serves one event at a
    time, each callback to completion. *)

Variant event :=
| E_incoming (accepted : option Sock) (port : option client_port_pair)
    (fork_ret : Z)                      (* the listening socket is readable *)
| E_protocol (rtsp : addr) (inp : list Z) (outq : list GString)
    (s : option RTSP_session) (write_on timer_on : bool)
                                        (* the client's socket is ready *)
| E_send (rtsp : addr)                  (* someone calls ev_async_send *)
| E_async (rtsp : addr)                 (* the loop looks at the async watcher *)
| E_timeout (rtsp : addr) (now : Z)     (* the client's timer is due *)
| E_reap.                               (* the worker's timer is due *)

Global Instance event_eq_dec : EqDecision event.
Proof. solve_decision. Defined.

(** Modelled from the spec: the protocol layer ([rtsp_read_cb],
    [rtsp_write_cb] and what they call; missing) owns the input buffer and
    the output queue of a client, negotiates its session, and starts the
    write watcher and the timer as it needs them.  It leaves the socket, the
    read watcher and the disconnect watcher as they are. *)
Definition protocol_layer (rtsp : addr) (inp : list Z) (outq : list GString)
    (s : option RTSP_session) (write_on timer_on : bool) : M unit :=
  modify_client rtsp (λ c,
    {| sock := sock c; input := inp; out_queue := outq; session := s;
       ev_io_read := ev_io_read c;
       ev_io_write := set_io_active write_on (ev_io_write c);
       ev_sig_disconnect := ev_sig_disconnect c;
       ev_timeout := set_timer_active timer_on (ev_timeout c) |}).

Definition clear_sent (rtsp : addr) : M unit :=
  modify_client rtsp (λ c,
    let x := ev_sig_disconnect c in
    set_ev_sig_disconnect
      {| async_cb := async_cb x; async_data := async_data x;
         async_sent := false; async_active := async_active x |} c).

Section Loop.

Variable count_t : Z → Z.
Variable ONE_FORK_MAX_CONNECTION : Z.
Variable b : build.

(** The loop calls back the watchers it holds, that is, the started ones
    of live clients, with the watcher's [data]. *)
Definition serve (e : event) : M unit := λ w,
  match e with
  | E_incoming accepted port fork_ret =>
      rtsp_client_incoming_cb count_t ONE_FORK_MAX_CONNECTION b
        accepted port fork_ret w
  | E_protocol rtsp inp outq s write_on timer_on =>
      match clients w !! rtsp with
      | Some c =>
          if io_active (ev_io_read c) || io_active (ev_io_write c)
          then protocol_layer rtsp inp outq s write_on timer_on w
          else Some ((), w, [])
      | None => Some ((), w, [])
      end
  | E_send rtsp => ev_async_send rtsp w
  | E_async rtsp =>
      match clients w !! rtsp with
      | Some c =>
          let x := ev_sig_disconnect c in
          match async_cb x, async_data x with
          | Some client_ev_disconnect_handler_cb, Some d =>
              if async_active x && async_sent x
              then (clear_sent rtsp;;
                    client_ev_disconnect_handler count_t b d) w
              else Some ((), w, [])
          | _, _ => Some ((), w, [])
          end
      | None => Some ((), w, [])
      end
  | E_timeout rtsp now =>
      match clients w !! rtsp with
      | Some c =>
          let x := ev_timeout c in
          match timer_cb x, timer_data x with
          | Some client_ev_timeout_cb, Some d =>
              if timer_active x then client_ev_timeout b d now w
              else Some ((), w, [])
          | _, _ => Some ((), w, [])
          end
      | None => Some ((), w, [])
      end
  | E_reap =>
      let x := loop_timer (srv w) in
      match timer_cb x with
      | Some timer_watcher_cb_cb =>
          if timer_active x then timer_watcher_cb count_t w
          else Some ((), w, [])
      | _ => Some ((), w, [])
      end
  end.

(** Nothing is served in a process that has called [exit]. *)
Definition loop_step (e : event) : M unit := λ w,
  match exit_status w with
  | Some _ => Some ((), w, [])
  | None => serve e w
  end.

(** A run of the loop: the final state and every call made, each with the
    event during which it was made. *)
Fixpoint run (evs : list event) (w : world)
  : option (world * list (event * action)) :=
  match evs with
  | [] => Some (w, [])
  | e :: evs' =>
      match loop_step e w with
      | None => None
      | Some (_, w1, l) =>
          match run evs' w1 with
          | None => None
          | Some (w2, h) => Some (w2, map (pair e) l ++ h)
          end
      end
  end.

End Loop.

(** The worker before the first connection; in the TRISOS build
    [loop_timer_init] has run. *)
Definition fresh_world (heartbeat : Z) : world :=
  {| srv := {| connection_count := 0; rtcp_heartbeat := heartbeat;
               loop_timer := ev_timer_zero |};
     clients := ∅; next_client := O; client_list := []; running := [];
     zombies := []; exit_status := None |}.

Definition initial_world (b : build) (heartbeat : Z) : world :=
  match b with
  | Cooperative => fresh_world heartbeat
  | TRISOS =>
      match loop_timer_init (fresh_world heartbeat) with
      | Some (_, w, _) => w
      | None => fresh_world heartbeat
      end
  end.

(** How often [a] occurs in [l]. *)
Definition occurrences {A} `{EqDecision A} (a : A) (l : list A) : nat :=
  length (filter (λ x, x = a) l).

(** How often the teardown of [rtsp] ran to the release of the record, in
    a history, and how often the counter was decremented while the loop
    served the disconnect watcher of [rtsp]. *)
Definition teardowns (rtsp : addr) (h : list (event * action)) : nat :=
  occurrences (G_slice_free rtsp) h.*2.
Definition decrements_for (rtsp : addr) (h : list (event * action)) : nat :=
  occurrences (E_async rtsp, Connection_count_dec) h.

(** ** The session timeout check *)

(** The calls of a tick on one session, as the source orders them. *)
Definition soft_calls (s : RTP_session) : list action :=
  [Fnc_log FNC_LOG_INFO "[client] Soft stream timeout";
   Rtcp_send_sr (rtp_addr s) BYE].
Definition kick_calls (s : RTP_session) : list action :=
  [Fnc_log FNC_LOG_INFO "[client] Stream Timeout, client kicked off!";
   Ev_async_send (rtp_client s)].
Definition lost_calls (s : RTP_session) : list action :=
  [Fnc_log FNC_LOG_INFO "[client] Client Lost Connection\n";
   Ev_async_send (rtp_client s)].

(** The conditions of the source, as propositions. *)
Definition soft_expired (s : RTP_session) (now : Z) : Prop :=
  media_source s = MS_live
  ∧ LIVE_STREAM_BYE_TIMEOUT ≤ now - last_packet_send_time s.
Definition stream_timed_out (s : RTP_session) (now : Z) : Prop :=
  STREAM_TIMEOUT ≤ now - last_packet_send_time s.
Definition hard_expired (b : build) (s : RTP_session) (now : Z) : Prop :=
  match b with
  | Cooperative => stream_timed_out s now
  | TRISOS => isBye s ≠ 0 ∧ stream_timed_out s now
  end.
Definition heartbeat_lost (w : world) (s : RTP_session) (now : Z) : Prop :=
  rtcp_heartbeat (srv w) ≠ 0 ∧ 60 ≤ now - last_rtcp_read_time s.

Global Instance soft_expired_dec s now : Decision (soft_expired s now).
Proof. unfold soft_expired. apply _. Defined.
Global Instance stream_timed_out_dec s now : Decision (stream_timed_out s now).
Proof. unfold stream_timed_out. apply _. Defined.
Global Instance hard_expired_dec b s now : Decision (hard_expired b s now).
Proof. destruct b; simpl; apply _. Defined.
Global Instance heartbeat_lost_dec w s now : Decision (heartbeat_lost w s now).
Proof. unfold heartbeat_lost. apply _. Defined.

(** The client record after [ev_async_send]. *)
Definition raise_sent (c : RTSP_Client) : RTSP_Client :=
  let x := ev_sig_disconnect c in
  set_ev_sig_disconnect
    {| async_cb := async_cb x; async_data := async_data x;
       async_sent := true; async_active := async_active x |} c.
Definition with_client (rtsp : addr) (c : RTSP_Client) (w : world) : world :=
  set_clients (<[rtsp := c]> (clients w)) w.

(** ** The teardown, spelled out *)

(** The calls of [client_ev_disconnect_handler] on the client [c] at
    [rtsp], in the order of the source. *)
Definition teardown_calls (b : build) (rtsp : addr) (c : RTSP_Client)
  : list action :=
  [Ev_io_stop rtsp EV_READ; Ev_io_stop rtsp EV_WRITE; Ev_async_stop rtsp;
   Ev_timer_stop rtsp; Close_Sock (sock c); Connection_count_dec;
   Rtsp_session_free (session c); Interleaved_free_list rtsp]
  ++ map G_string_free (reverse (out_queue c))
  ++ [G_queue_free rtsp; G_byte_array_free rtsp; G_slice_free rtsp;
      Fnc_log FNC_LOG_INFO "[client] Client removed"]
  ++ match b with Cooperative => [] | TRISOS => [Sleep 1; Exit 0] end.

(** The state it leaves. *)
Definition torn_down (count_t : Z → Z) (b : build) (rtsp : addr) (w : world)
  : world :=
  let w1 :=
    set_srv (set_connection_count (decr count_t (connection_count (srv w)))
               (srv w))
      (set_clients (delete rtsp (clients w)) w) in
  match b with
  | Cooperative => w1
  | TRISOS => set_exit_status (Some 0) w1
  end.

(** The steps of the teardown as the specification numbers them; the calls
    it does not list have no number. *)
Definition teardown_step (a : action) : option nat :=
  match a with
  | Ev_io_stop _ EV_READ => Some 1%nat
  | Ev_io_stop _ EV_WRITE => Some 2%nat
  | Ev_async_stop _ => Some 3%nat
  | Ev_timer_stop _ => Some 4%nat
  | Close_Sock _ => Some 5%nat
  | Connection_count_dec => Some 6%nat
  | Rtsp_session_free _ => Some 7%nat
  | G_string_free _ => Some 8%nat
  | G_queue_free _ => Some 9%nat
  | G_byte_array_free _ => Some 10%nat
  | G_slice_free _ => Some 11%nat
  | _ => None
  end.

(** Calls that stop a watcher, and calls that release something. *)
Definition stops_watcher (a : action) : bool :=
  match a with
  | Ev_io_stop _ _ | Ev_async_stop _ | Ev_timer_stop _ => true
  | _ => false
  end.
Definition releases (a : action) : bool :=
  match a with
  | Close_Sock _ | Rtsp_session_free _ | Interleaved_free_list _
  | G_string_free _ | G_queue_free _ | G_byte_array_free _
  | G_slice_free _ => true
  | _ => false
  end.

(** The buffers freed by a list of calls, in order. *)
Definition freed_buffers (l : list action) : list GString :=
  omap (λ a, match a with G_string_free b => Some b | _ => None end) l.

(** ** The client record after its set-up *)

(** The record [setup_client] leaves at [rtsp] for the socket [s]. *)
Definition new_client (rtsp : addr) (s : Sock) : RTSP_Client :=
  {| sock := s; input := []; out_queue := []; session := None;
     ev_io_read :=
       {| io_cb := Some rtsp_read_cb; io_data := Some rtsp;
          io_fd := Sock_fd s; io_events_of := Some EV_READ;
          io_active := true |};
     ev_io_write :=
       {| io_cb := Some rtsp_write_cb; io_data := Some rtsp;
          io_fd := Sock_fd s; io_events_of := Some EV_WRITE;
          io_active := false |};
     ev_sig_disconnect :=
       {| async_cb := Some client_ev_disconnect_handler_cb;
          async_data := Some rtsp; async_sent := false;
          async_active := true |};
     ev_timeout :=
       {| timer_cb := Some client_ev_timeout_cb; timer_data := Some rtsp;
          timer_repeat := STREAM_TIMEOUT; timer_active := false |} |}.

(** The calls of [setup_client]. *)
Definition setup_calls (rtsp : addr) : list action :=
  [G_slice_new0 rtsp; Connection_count_inc; Ev_io_start rtsp EV_READ;
   Fnc_log FNC_LOG_INFO "Incoming RTSP connection accepted on socket: %d\n";
   Ev_async_start rtsp;
   Fnc_log FNC_LOG_INFO "Connection reached: %d\n"].

(** The state [setup_client] leaves. *)
Definition set_up (count_t : Z → Z) (s : Sock) (w : world) : world :=
  set_srv (set_connection_count (incr count_t (connection_count (srv w)))
             (srv w))
    (set_next_client (S (next_client w))
       (with_client (next_client w) (new_client (next_client w) s) w)).

(** ** The reaper, observed *)

(** The records released, and the records taken out of the table, by a
    list of calls, in order. *)
Definition released_records (l : list action) : list client_port_pair :=
  omap (λ a, match a with Free_child_port c => Some c | _ => None end) l.
Definition removed_records (l : list action) : list client_port_pair :=
  omap (λ a, match a with Reduce_client_list c => Some c | _ => None end) l.

(** A child is tracked when the table has a record with its pid. *)
Definition tracked (w : world) (p : positive) : Prop :=
  Zpos p ∈ cpp_pid <$> client_list w.

(** ** Invariants of the loop *)

(** A disconnect watcher is wired when it is started, calls the disconnect
    handler and carries the address of its client. *)
Definition wired (rtsp : addr) (c : RTSP_Client) : Prop :=
  async_cb (ev_sig_disconnect c) = Some client_ev_disconnect_handler_cb
  ∧ async_data (ev_sig_disconnect c) = Some rtsp
  ∧ async_active (ev_sig_disconnect c) = true.

(** In a well-formed state the live records are below the next address to
    be given out, and their disconnect watchers are wired. *)
Definition well_formed (w : world) : Prop :=
  ∀ rtsp c, clients w !! rtsp = Some c →
            (rtsp < next_client w)%nat ∧ wired rtsp c.

(** A record that was given out and released. *)
Definition released (rtsp : addr) (w : world) : Prop :=
  (rtsp < next_client w)%nat ∧ clients w !! rtsp = None.

(** Two records with the same wiring of the disconnect watcher. *)
Definition same_wiring (c c' : RTSP_Client) : Prop :=
  async_cb (ev_sig_disconnect c') = async_cb (ev_sig_disconnect c)
  ∧ async_data (ev_sig_disconnect c') = async_data (ev_sig_disconnect c)
  ∧ async_active (ev_sig_disconnect c') = async_active (ev_sig_disconnect c).

(** [stable w w']: from [w] to [w'] no record was given out or released,
    no disconnect watcher was rewired, and the process did not exit. *)
Definition stable (w w' : world) : Prop :=
  next_client w' = next_client w
  ∧ exit_status w' = exit_status w
  ∧ ∀ rtsp,
      match clients w !! rtsp, clients w' !! rtsp with
      | Some c, Some c' => same_wiring c c'
      | None, None => True
      | _, _ => False
      end.

(** A computation that keeps the state stable and releases no record. *)
Definition preserving {A} (m : M A) : Prop :=
  ∀ w a w' l, m w = Some (a, w', l) →
              stable w w' ∧ ∀ rtsp, G_slice_free rtsp ∉ l.

(** ** Sample data *)

Definition size_t_64 (z : Z) : Z := z mod 2 ^ 64.

Definition sample_sock : Sock := {| sock_handle := 7%nat; Sock_fd := 5 |}.

(** A client at address 0 as [setup_client] leaves it. *)
Definition sample_client : RTSP_Client := new_client O sample_sock.

(** A worker with that one client. *)
Definition sample_world (heartbeat : Z) : world :=
  {| srv := {| connection_count := 1; rtcp_heartbeat := heartbeat;
               loop_timer := ev_timer_zero |};
     clients := {[ O := sample_client ]}; next_client := 1%nat;
     client_list := []; running := []; zombies := []; exit_status := None |}.

(** A session of that client on a live source. *)
Definition live_session (last_send last_rtcp bye : Z) : RTP_session :=
  {| rtp_addr := 100%nat; rtp_client := O; media_source := MS_live;
     last_packet_send_time := last_send; last_rtcp_read_time := last_rtcp;
     isBye := bye |}.

(** A worker with three tracked children, two of which have terminated. *)
Definition reaper_world : world :=
  {| srv := {| connection_count := 3; rtcp_heartbeat := 0;
               loop_timer := ev_timer_zero |};
     clients := ∅; next_client := O;
     client_list := [ {| cpp_pid := 6; cpp_port := 100 |};
                      {| cpp_pid := 5; cpp_port := 102 |};
                      {| cpp_pid := 9; cpp_port := 104 |} ];
     running := [9%positive]; zombies := [5%positive; 6%positive];
     exit_status := None |}.

(** A run: a connection is admitted, its disconnect is requested three
    times, and the loop looks at its disconnect watcher twice. *)
Definition sample_events : list event :=
  [E_incoming (Some sample_sock) None 0; E_send O; E_send O; E_send O;
   E_async O; E_async O].

(** ** What a callback leaves alone *)

(** A computation whose defined runs relate the state before, the calls
    made and the state after by [R]. *)
Definition keeps (R : world → list action → world → Prop) {A} (m : M A)
  : Prop :=
  ∀ w a w' l, m w = Some (a, w', l) → R w l w'.

(** All of a client record but the pending flag of its disconnect watcher
    and the started flag of its timer. *)
Definition flagless (c : RTSP_Client) :=
  (sock c, input c, out_queue c, session c, ev_io_read c, ev_io_write c,
   async_cb (ev_sig_disconnect c), async_data (ev_sig_disconnect c),
   async_active (ev_sig_disconnect c),
   timer_cb (ev_timeout c), timer_data (ev_timeout c),
   timer_repeat (ev_timeout c)).

(** The record [c'] is [c] but for these flags, and the pending flag is as
    it was or has been raised by an [ev_async_send] among the calls [l]. *)
Definition same_but_flags (rtsp : addr) (l : list action)
    (c c' : RTSP_Client) : Prop :=
  flagless c' = flagless c
  ∧ (async_sent (ev_sig_disconnect c') = async_sent (ev_sig_disconnect c)
     ∨ (async_sent (ev_sig_disconnect c') = true ∧ Ev_async_send rtsp ∈ l)).

(** The calls of a tick: logs, RTCP packets, disconnect requests and the
    re-arming of the timer. *)
Definition is_signal (a : action) : Prop :=
  match a with
  | Fnc_log _ _ | Rtcp_send_sr _ _ | Ev_async_send _ | Ev_timer_again _ => True
  | _ => False
  end.

(** [tick_frame w l w']: the calls [l] are of these kinds, and from [w] to
    [w'] no record was given out or released and nothing changed but
    pending flags and timer flags of the clients. *)
Definition tick_frame (w : world) (l : list action) (w' : world) : Prop :=
  srv w' = srv w ∧ next_client w' = next_client w
  ∧ client_list w' = client_list w ∧ running w' = running w
  ∧ zombies w' = zombies w ∧ exit_status w' = exit_status w
  ∧ Forall is_signal l
  ∧ ∀ rtsp,
      match clients w !! rtsp, clients w' !! rtsp with
      | Some c, Some c' => same_but_flags rtsp l c c'
      | None, None => True
      | _, _ => False
      end.

(** The session makes the tick request the disconnect of its client. *)
Definition evicts (b : build) (w : world) (s : RTP_session) (now : Z)
  : Prop :=
  match b with
  | Cooperative => stream_timed_out s now
  | TRISOS => hard_expired TRISOS s now ∨ heartbeat_lost w s now
  end.

Global Instance evicts_dec b w s now : Decision (evicts b w s now).
Proof. destruct b; simpl; apply _. Defined.

(** The client record after [ev_timer_again] on its timer. *)
Definition rearmed (c : RTSP_Client) : RTSP_Client :=
  set_ev_timeout (ev_timer_again_on (ev_timeout c)) c.

(** A session of the sample client on a stored source. *)
Definition stored_session (last_send last_rtcp bye : Z) : RTP_session :=
  {| rtp_addr := 101%nat; rtp_client := O; media_source := MS_stored;
     last_packet_send_time := last_send; last_rtcp_read_time := last_rtcp;
     isBye := bye |}.

(** The sample client after the protocol layer has negotiated a session
    with the given RTP sessions and started the timer. *)
Definition playing_client (ss : list RTP_session) : RTSP_Client :=
  {| sock := sample_sock; input := []; out_queue := [];
     session := Some {| rtp_sessions := ss |};
     ev_io_read := ev_io_read sample_client;
     ev_io_write := ev_io_write sample_client;
     ev_sig_disconnect := ev_sig_disconnect sample_client;
     ev_timeout := set_timer_active true (ev_timeout sample_client) |}.

Definition playing_world (heartbeat : Z) (ss : list RTP_session) : world :=
  with_client O (playing_client ss) (sample_world heartbeat).


(** ** The admission, spelled out *)

(** The child after [fork] and [loop_timer_uninit]: it has no children of
    its own and the worker's timer is stopped. *)
Definition child_world (w : world) : world :=
  set_srv (set_loop_timer (set_timer_active false (loop_timer (srv w)))
             (srv w))
    (set_children [] [] w).

(** The parent after it has counted and tracked the child [pid]. *)
Definition parent_world (count_t : Z → Z) (pid : positive)
    (p : client_port_pair) (w : world) : world :=
  set_client_list (client_list w ++ [set_cpp_pid (Zpos pid) p])
    (set_srv (set_connection_count (incr count_t (connection_count (srv w)))
                (srv w))
       (set_children (running w ++ [pid]) (zombies w) w)).

(** The state [rtsp_client_incoming_cb] leaves and the calls it makes, by
    the answers of the environment. *)
Definition incoming_outcome (count_t : Z → Z) (ONE_FORK_MAX_CONNECTION : Z)
    (b : build) (accepted : option Sock) (port : option client_port_pair)
    (fork_ret : Z) (w : world) : world * list action :=
  match accepted with
  | None => (w, [Sock_accept None])
  | Some s =>
      if bool_decide (ONE_FORK_MAX_CONNECTION ≤ connection_count (srv w))
      then (w, [Sock_accept (Some s); Close_Sock s])
      else
        match b, port, fork_ret with
        | Cooperative, _, _ =>
            (set_up count_t s w, Sock_accept (Some s) :: setup_calls (next_client w))
        | TRISOS, None, _ =>
            (w, [Sock_accept (Some s); New_child_port None; Close_Sock s])
        | TRISOS, Some p, Z0 =>
            (set_up count_t s (child_world w),
             [Sock_accept (Some s); New_child_port (Some p); Fork 0;
              Free_child_port p; Ev_loop_timer_stop; Feng_ports_cleanup]
             ++ setup_calls (next_client w))
        | TRISOS, Some p, Zpos pid =>
            (parent_world count_t pid p w,
             [Sock_accept (Some s); New_child_port (Some p); Fork (Zpos pid);
              Connection_count_inc; Close_Sock s;
              Add_client_list (set_cpp_pid (Zpos pid) p)])
        | TRISOS, Some p, Zneg _ =>
            (w, [Sock_accept (Some s); New_child_port (Some p); Fork fork_ret;
                 Close_Sock s; Free_child_port p;
                 Fnc_log FNC_LOG_INFO "fork faild\n"])
        end
  end.

Global Instance build_eq_dec : EqDecision build.
Proof. solve_decision. Defined.

(** The connection is counted: it was accepted below the ceiling and, in
    the TRISOS build, a port pair was reserved and [fork] did not fail. *)
Definition admits (ONE_FORK_MAX_CONNECTION : Z) (b : build)
    (accepted : option Sock) (port : option client_port_pair) (fork_ret : Z)
    (w : world) : Prop :=
  is_Some accepted
  ∧ connection_count (srv w) < ONE_FORK_MAX_CONNECTION
  ∧ (b = TRISOS → is_Some port ∧ 0 ≤ fork_ret).

(** The connection is served by this process: it is below the ceiling and,
    in the TRISOS build, this is the child. *)
Definition serves_here (ONE_FORK_MAX_CONNECTION : Z) (b : build)
    (port : option client_port_pair) (fork_ret : Z) (w : world) : Prop :=
  connection_count (srv w) < ONE_FORK_MAX_CONNECTION
  ∧ (b = TRISOS → is_Some port ∧ fork_ret = 0).

Global Instance admits_dec MAX b accepted port fork_ret w :
  Decision (admits MAX b accepted port fork_ret w).
Proof. unfold admits. apply _. Defined.
Global Instance serves_here_dec MAX b port fork_ret w :
  Decision (serves_here MAX b port fork_ret w).
Proof. unfold serves_here. apply _. Defined.

(** The calls of the reaper's loop. *)
Definition reaper_call (a : action) : Prop :=
  match a with
  | Waitpid _ | Reduce_client_list _ | Connection_count_dec
  | Free_child_port _ => True
  | _ => False
  end.

(** A worker with one tracked child and two terminated children it does
    not track. *)
Definition stray_world : world :=
  {| srv := {| connection_count := 1; rtcp_heartbeat := 0;
               loop_timer := ev_timer_zero |};
     clients := ∅; next_client := O;
     client_list := [ {| cpp_pid := 6; cpp_port := 100 |} ];
     running := [6%positive]; zombies := [7%positive; 8%positive];
     exit_status := None |}.

(** ** The counter and the connections *)



(** ** Requests and teardowns *)

(** The disconnect of the live client [x] has been requested and not yet
    served. *)
Definition pending (w : world) (x : addr) : Prop :=
  ∃ c, clients w !! x = Some c ∧ async_sent (ev_sig_disconnect c) = true.

(** ** The worker's timer *)

(** The timer as [loop_timer_init] leaves it: it calls the reaper every
    five seconds. *)
Definition armed (t : ev_timer) : Prop :=
  timer_cb t = Some timer_watcher_cb_cb ∧ timer_repeat t = 5
  ∧ timer_active t = true.

(** * Properties *)

(** Unfolding of the computations. *)
Ltac unfold_m :=
  unfold when, fnc_log, rtcp_send_sr, Sock_close, rtsp_session_free,
    interleaved_free_list, g_string_free, g_queue_free, g_byte_array_free,
    sleep, free_child_port, feng_ports_cleanup, get_world, modify_world,
    emit, undefined, mbind, M_bind, mret, M_ret in *.

Lemma bind_run {A B} (m : M A) (k : A → M B) w :
  (m ≫= k) w =
    match m w with
    | None => None
    | Some (a, w1, l1) =>
        match k a w1 with
        | None => None
        | Some (r, w2, l2) => Some (r, w2, l1 ++ l2)
        end
    end.
Proof. reflexivity. Qed.

Lemma modify_client_run rtsp f w c :
  clients w !! rtsp = Some c →
  modify_client rtsp f w = Some ((), with_client rtsp (f c) w, []).
Proof.
  intros H. unfold modify_client, deref. rewrite bind_run, H. reflexivity.
Qed.

Lemma modify_client_undefined rtsp f w :
  clients w !! rtsp = None → modify_client rtsp f w = None.
Proof.
  intros H. unfold modify_client, deref. rewrite bind_run, H. reflexivity.
Qed.

Lemma bind_Some {A B} (m : M A) (k : A → M B) w a w1 l1 r w2 l2 :
  m w = Some (a, w1, l1) →
  k a w1 = Some (r, w2, l2) →
  (m ≫= k) w = Some (r, w2, l1 ++ l2).
Proof. intros H1 H2. by rewrite bind_run, H1, H2. Qed.

Lemma deref_run rtsp w c :
  clients w !! rtsp = Some c → deref rtsp w = Some (c, w, []).
Proof. intros H. unfold deref. by rewrite H. Qed.

Lemma g_slist_foreach_free l w :
  g_slist_foreach l g_string_free w = Some ((), w, map G_string_free l).
Proof.
  induction l as [|x l IH]; [done|].
  simpl. rewrite bind_run. unfold g_string_free at 1. unfold emit.
  by rewrite IH.
Qed.

Lemma world_eq (w1 w2 : world) :
  srv w1 = srv w2 → clients w1 = clients w2 →
  next_client w1 = next_client w2 → client_list w1 = client_list w2 →
  running w1 = running w2 → zombies w1 = zombies w2 →
  exit_status w1 = exit_status w2 → w1 = w2.
Proof. destruct w1, w2. simpl. by intros -> -> -> -> -> -> ->. Qed.

Lemma result_eq {A} (a : A) (w1 w2 : world) (l1 l2 : list action) :
  w1 = w2 → l1 = l2 → Some (a, w1, l1) = Some (a, w2, l2).
Proof. by intros -> ->. Qed.

(** The fields of a state after a chain of updates. *)
Ltac world_fields :=
  cbn [srv clients next_client client_list running zombies exit_status
       set_srv set_clients set_next_client set_client_list set_children
       set_exit_status with_client torn_down set_up
       connection_count rtcp_heartbeat loop_timer set_connection_count
       set_loop_timer].

(** Running a computation step by step: the record of the client is looked
    up in the hypotheses or is the one just written. *)
Ltac lookup_client :=
  cbn [clients with_client set_clients set_srv set_exit_status set_next_client
       set_client_list set_children];
  first [eassumption | apply lookup_insert_eq].

Ltac norm_client :=
  cbn [set_io get_io set_ev_io_read set_ev_io_write set_ev_sig_disconnect
       set_ev_timeout set_out_queue set_io_active set_timer_active
       set_timer_data set_timer_repeat ev_init_timer
       sock input out_queue session ev_io_read ev_io_write ev_sig_disconnect
       ev_timeout io_cb io_data io_fd io_events_of io_active
       async_cb async_data async_sent async_active
       timer_cb timer_data timer_repeat timer_active].

Ltac run_m :=
  cbv beta; norm_client;
  lazymatch goal with
  | |- (_ ≫= _) _ = _ => eapply bind_Some; [run_m | run_m]
  | |- modify_client _ _ _ = _ => apply modify_client_run; lookup_client
  | |- deref _ _ = _ => apply deref_run; lookup_client
  | |- g_slist_foreach _ g_string_free _ = _ => apply g_slist_foreach_free
  | |- ev_io_init _ _ _ _ _ _ = _ => unfold ev_io_init; run_m
  | |- set_io_data _ _ _ _ = _ => unfold set_io_data; run_m
  | |- set_async_data _ _ _ = _ => unfold set_async_data; run_m
  | |- ev_io_stop _ _ _ = _ => unfold ev_io_stop; run_m
  | |- ev_io_start _ _ _ = _ => unfold ev_io_start; run_m
  | |- ev_async_init _ _ _ = _ => unfold ev_async_init; run_m
  | |- ev_async_stop _ _ = _ => unfold ev_async_stop; run_m
  | |- ev_async_start _ _ = _ => unfold ev_async_start; run_m
  | |- ev_async_send _ _ = _ => unfold ev_async_send; run_m
  | |- clear_sent _ _ = _ => unfold clear_sent; run_m
  | |- ev_timer_stop _ _ = _ => unfold ev_timer_stop; run_m
  | |- ev_timer_again _ _ = _ => unfold ev_timer_again; run_m
  | |- g_slice_free _ _ = _ => unfold g_slice_free; run_m
  | |- remove_output_queue _ _ = _ => unfold remove_output_queue; run_m
  | |- _ => reflexivity
  end.

Lemma ev_async_send_run rtsp w c :
  clients w !! rtsp = Some c →
  ev_async_send rtsp w
  = Some ((), with_client rtsp (raise_sent c) w, [Ev_async_send rtsp]).
Proof.
  intros H. unfold ev_async_send.
  rewrite bind_run, (modify_client_run _ _ _ _ H). reflexivity.
Qed.

(** What a tick does on one session in the default build. *)
Lemma check_cooperative_run (s : RTP_session) now w c :
  clients w !! rtp_client s = Some c →
  check_if_any_rtp_session_timedout Cooperative s now w
  = Some ((),
          if decide (stream_timed_out s now)
          then with_client (rtp_client s) (raise_sent c) w else w,
          (if decide (soft_expired s now) then soft_calls s else [])
          ++ (if decide (stream_timed_out s now) then kick_calls s else [])).
Proof.
  intros H. unfold check_if_any_rtp_session_timedout.
  rewrite bind_run, <- bool_decide_and, !decide_bool_decide.
  fold (soft_expired s now) (stream_timed_out s now).
  destruct (bool_decide (soft_expired s now));
    destruct (bool_decide (stream_timed_out s now)); unfold_m;
    try rewrite (ev_async_send_run _ _ _ H); reflexivity.
Qed.

(** What a tick does on one session in the TRISOS build. *)
Lemma check_trisos_run (s : RTP_session) now w c :
  clients w !! rtp_client s = Some c →
  check_if_any_rtp_session_timedout TRISOS s now w
  = Some ((),
          if decide (hard_expired TRISOS s now ∨ heartbeat_lost w s now)
          then with_client (rtp_client s) (raise_sent c) w else w,
          (if decide (soft_expired s now) then soft_calls s else [])
          ++ (if decide (hard_expired TRISOS s now) then kick_calls s
              else Rtcp_send_sr (rtp_addr s) SDES
                   :: (if decide (heartbeat_lost w s now) then lost_calls s
                       else []))).
Proof.
  intros H. unfold check_if_any_rtp_session_timedout.
  rewrite bind_run, <- !bool_decide_and, !decide_bool_decide.
  rewrite bool_decide_or.
  fold (soft_expired s now) (stream_timed_out s now).
  change (isBye s ≠ 0 ∧ stream_timed_out s now) with (hard_expired TRISOS s now).
  destruct (bool_decide (soft_expired s now));
    destruct (bool_decide (hard_expired TRISOS s now)); unfold_m;
    try rewrite (ev_async_send_run _ _ _ H); try reflexivity.
  all: rewrite <- bool_decide_and; fold (heartbeat_lost w s now);
    destruct (bool_decide (heartbeat_lost w s now)); simpl;
    try rewrite (ev_async_send_run _ _ _ H); reflexivity.
Qed.

(** Without a bye flag and without heartbeat supervision the TRISOS tick
    touches nothing, whether or not the client record is there. *)
Lemma check_trisos_quiet (s : RTP_session) now w :
  rtcp_heartbeat (srv w) = 0 → isBye s = 0 →
  check_if_any_rtp_session_timedout TRISOS s now w
  = Some ((), w,
          (if decide (soft_expired s now) then soft_calls s else [])
          ++ [Rtcp_send_sr (rtp_addr s) SDES]).
Proof.
  intros Hh Hb. unfold check_if_any_rtp_session_timedout.
  rewrite bind_run, <- !bool_decide_and, !decide_bool_decide.
  fold (soft_expired s now).
  rewrite (bool_decide_eq_false_2 (isBye s ≠ 0 ∧ _)) by (intros [? _]; done).
  destruct (bool_decide (soft_expired s now)); unfold_m;
    rewrite <- bool_decide_and;
    rewrite (bool_decide_eq_false_2 (rtcp_heartbeat (srv w) ≠ 0 ∧ _))
      by (intros [? _]; done);
    reflexivity.
Qed.

(** In a list of calls that starts with the soft-expiry calls, a BYE comes
    before every disconnect request. *)
Lemma bye_precedes_send (s : RTP_session) rest l1 l2 rtsp :
  soft_calls s ++ rest = l1 ++ Ev_async_send rtsp :: l2 →
  Rtcp_send_sr (rtp_addr s) BYE ∈ l1.
Proof.
  unfold soft_calls. intros E.
  destruct l1 as [|x [|y l1]]; simpl in E; try discriminate.
  injection E as _ <- _. apply list_elem_of_In. simpl. tauto.
Qed.

Section Supervisor.

Implicit Types (s : RTP_session) (now : Z) (w : world).

(** C5: a live session that sent nothing for [STREAM_TIMEOUT] = 12 units
    (with [LIVE_STREAM_BYE_TIMEOUT] = 6) gets a soft-expiry BYE before
    the hard-expiry disconnect request: where the hard expiry applies the
    tick requests the disconnect, and every disconnect request of the
    tick has the BYE of that session before it. *)
Theorem soft_bye_before_hard_disconnect b s now w c :
  media_source s = MS_live →
  STREAM_TIMEOUT ≤ now - last_packet_send_time s →
  clients w !! rtp_client s = Some c →
  ∃ w' acts,
    check_if_any_rtp_session_timedout b s now w = Some ((), w', acts)
    ∧ (hard_expired b s now → Ev_async_send (rtp_client s) ∈ acts)
    ∧ (∀ l1 l2, acts = l1 ++ Ev_async_send (rtp_client s) :: l2
                → Rtcp_send_sr (rtp_addr s) BYE ∈ l1).
Proof.
  intros Hlive Ht Hc.
  assert (Hsoft : soft_expired s now).
  { split; [done|]. unfold STREAM_TIMEOUT, LIVE_STREAM_BYE_TIMEOUT in *. lia. }
  destruct b.
  - rewrite (check_cooperative_run _ _ _ _ Hc).
    destruct (decide (soft_expired s now)); [|done].
    eexists _, _. split; [reflexivity|]. split.
    + intros Hh. simpl in Hh. rewrite decide_True by done.
      apply list_elem_of_In. simpl. tauto.
    + intros l1 l2. apply bye_precedes_send.
  - rewrite (check_trisos_run _ _ _ _ Hc).
    destruct (decide (soft_expired s now)); [|done].
    eexists _, _. split; [reflexivity|]. split.
    + intros Hh. rewrite decide_True by done.
      apply list_elem_of_In. simpl. tauto.
    + intros l1 l2. apply bye_precedes_send.
Qed.

Lemma soft_bye_before_hard_disconnect_witness :
  ∃ w' acts,
    check_if_any_rtp_session_timedout Cooperative (live_session 0 0 0) 12
      (sample_world 0) = Some ((), w', acts)
    ∧ (hard_expired Cooperative (live_session 0 0 0) 12
       → Ev_async_send O ∈ acts)
    ∧ (∀ l1 l2, acts = l1 ++ Ev_async_send O :: l2
                → Rtcp_send_sr 100%nat BYE ∈ l1).
Proof.
  apply (soft_bye_before_hard_disconnect Cooperative (live_session 0 0 0) 12
           (sample_world 0) sample_client).
  - reflexivity.
  - vm_compute. discriminate.
  - reflexivity.
Defined.

(** C10: in the TRISOS build with [rtcp_heartbeat] = 0, a tick on a
    session whose bye flag is unset requests no disconnect, whatever the
    time since its last packet or its last RTCP report: it is defined,
    leaves the state as it is, and none of its calls is an
    [ev_async_send]. *)
Theorem no_disconnect_without_bye_nor_heartbeat s now w :
  rtcp_heartbeat (srv w) = 0 →
  isBye s = 0 →
  ∃ acts,
    check_if_any_rtp_session_timedout TRISOS s now w = Some ((), w, acts)
    ∧ ∀ rtsp, Ev_async_send rtsp ∉ acts.
Proof.
  intros Hh Hb. rewrite (check_trisos_quiet _ _ _ Hh Hb).
  eexists. split; [reflexivity|].
  intros rtsp Hin. apply list_elem_of_In in Hin.
  destruct (decide (soft_expired s now)); simpl in Hin;
    intuition discriminate.
Qed.

Lemma no_disconnect_without_bye_nor_heartbeat_witness :
  ∃ acts,
    check_if_any_rtp_session_timedout TRISOS (live_session 0 0 0) 1000
      (sample_world 0) = Some ((), sample_world 0, acts)
    ∧ ∀ rtsp, Ev_async_send rtsp ∉ acts.
Proof.
  apply (no_disconnect_without_bye_nor_heartbeat (live_session 0 0 0) 1000
           (sample_world 0)); reflexivity.
Defined.

(** C6, at an input: in the TRISOS build with heartbeat supervision on, a
    tick on a session with the bye flag set and 12 units without a packet
    sends no SDES; it logs the kick and requests the disconnect. *)
Lemma no_heartbeat_on_hard_expiry :
  check_if_any_rtp_session_timedout TRISOS (live_session 0 0 1) 12
    (sample_world 1)
  = Some ((), with_client O (raise_sent sample_client) (sample_world 1),
          [Fnc_log FNC_LOG_INFO "[client] Soft stream timeout";
           Rtcp_send_sr 100%nat BYE;
           Fnc_log FNC_LOG_INFO "[client] Stream Timeout, client kicked off!";
           Ev_async_send O])
  ∧ Rtcp_send_sr 100%nat SDES
    ∉ [Fnc_log FNC_LOG_INFO "[client] Soft stream timeout";
       Rtcp_send_sr 100%nat BYE;
       Fnc_log FNC_LOG_INFO "[client] Stream Timeout, client kicked off!";
       Ev_async_send O].
Proof.
  split; [reflexivity|].
  intros Hin. apply list_elem_of_In in Hin. simpl in Hin.
  intuition discriminate.
Qed.

(** C6, amended: in the TRISOS build a tick on a session either takes the
    hard expiry (bye flag set and 12 units without a packet), and then
    requests the disconnect without sending SDES, or it sends SDES and
    requests the disconnect exactly when heartbeat supervision is on and the
    last RTCP report is at least 60 units old. *)
Theorem heartbeat_unless_hard_expired s now w c :
  clients w !! rtp_client s = Some c →
  ∃ w' acts,
    check_if_any_rtp_session_timedout TRISOS s now w = Some ((), w', acts)
    ∧ (if decide (hard_expired TRISOS s now)
       then (Rtcp_send_sr (rtp_addr s) SDES ∉ acts)
            ∧ Ev_async_send (rtp_client s) ∈ acts
       else Rtcp_send_sr (rtp_addr s) SDES ∈ acts
            ∧ (Ev_async_send (rtp_client s) ∈ acts ↔ heartbeat_lost w s now)).
Proof.
  intros Hc. rewrite (check_trisos_run _ _ _ _ Hc).
  eexists _, _. split; [reflexivity|].
  destruct (decide (hard_expired TRISOS s now)).
  - split.
    + intros Hin. apply list_elem_of_In in Hin.
      destruct (decide (soft_expired s now)); simpl in Hin;
        intuition discriminate.
    + apply list_elem_of_In, in_or_app. right. simpl. tauto.
  - split.
    + apply list_elem_of_In, in_or_app. right. simpl. tauto.
    + rewrite list_elem_of_In.
      destruct (decide (soft_expired s now));
        destruct (decide (heartbeat_lost w s now)); simpl;
        intuition discriminate.
Qed.

Lemma heartbeat_unless_hard_expired_witness :
  ∃ w' acts,
    check_if_any_rtp_session_timedout TRISOS (live_session 0 0 0) 70
      (sample_world 1) = Some ((), w', acts)
    ∧ (if decide (hard_expired TRISOS (live_session 0 0 0) 70)
       then (Rtcp_send_sr 100%nat SDES ∉ acts) ∧ Ev_async_send O ∈ acts
       else Rtcp_send_sr 100%nat SDES ∈ acts
            ∧ (Ev_async_send O ∈ acts
               ↔ heartbeat_lost (sample_world 1) (live_session 0 0 0) 70)).
Proof.
  apply (heartbeat_unless_hard_expired (live_session 0 0 0) 70
           (sample_world 1) sample_client).
  reflexivity.
Defined.

(** C7, at an input: in the default build a live session whose last packet
    left at time 5 gets a BYE at the tick of time 12, which requests no
    disconnect, and a BYE again at the tick of time 24; so does one that
    sent a last packet at 17 in between, with no disconnect request at
    all. *)
Lemma bye_again_on_next_tick :
  check_if_any_rtp_session_timedout Cooperative (live_session 5 0 0) 12
    (sample_world 0)
  = Some ((), sample_world 0,
          [Fnc_log FNC_LOG_INFO "[client] Soft stream timeout";
           Rtcp_send_sr 100%nat BYE])
  ∧ check_if_any_rtp_session_timedout Cooperative (live_session 5 0 0) 24
      (sample_world 0)
    = Some ((), with_client O (raise_sent sample_client) (sample_world 0),
            [Fnc_log FNC_LOG_INFO "[client] Soft stream timeout";
             Rtcp_send_sr 100%nat BYE;
             Fnc_log FNC_LOG_INFO "[client] Stream Timeout, client kicked off!";
             Ev_async_send O])
  ∧ check_if_any_rtp_session_timedout Cooperative (live_session 17 0 1) 24
      (sample_world 0)
    = Some ((), sample_world 0,
            [Fnc_log FNC_LOG_INFO "[client] Soft stream timeout";
             Rtcp_send_sr 100%nat BYE]).
Proof. repeat split; reflexivity. Qed.

(** C7, amended: a tick sends the BYE of a session exactly when its source
    is live and its last packet is at least 6 units old; neither the bye
    flag nor an earlier BYE is looked at, so the BYE is repeated at every
    tick for as long as that holds. *)
Theorem bye_whenever_soft_expired b s now w c :
  clients w !! rtp_client s = Some c →
  ∃ w' acts,
    check_if_any_rtp_session_timedout b s now w = Some ((), w', acts)
    ∧ (Rtcp_send_sr (rtp_addr s) BYE ∈ acts ↔ soft_expired s now).
Proof.
  intros Hc. destruct b.
  - rewrite (check_cooperative_run _ _ _ _ Hc).
    eexists _, _. split; [reflexivity|]. rewrite list_elem_of_In.
    destruct (decide (soft_expired s now));
      destruct (decide (stream_timed_out s now)); simpl;
      intuition discriminate.
  - rewrite (check_trisos_run _ _ _ _ Hc).
    eexists _, _. split; [reflexivity|]. rewrite list_elem_of_In.
    destruct (decide (soft_expired s now));
      destruct (decide (hard_expired TRISOS s now));
      destruct (decide (heartbeat_lost w s now)); simpl;
      intuition discriminate.
Qed.

Lemma bye_whenever_soft_expired_witness :
  ∃ w' acts,
    check_if_any_rtp_session_timedout TRISOS (live_session 5 0 1) 12
      (sample_world 0) = Some ((), w', acts)
    ∧ (Rtcp_send_sr 100%nat BYE ∈ acts ↔ soft_expired (live_session 5 0 1) 12).
Proof.
  apply (bye_whenever_soft_expired TRISOS (live_session 5 0 1) 12
           (sample_world 0) sample_client).
  reflexivity.
Defined.

End Supervisor.

(** ** The output queue *)

Lemma g_queue_pop_tail_snoc {A} (q : list A) x :
  g_queue_pop_tail (q ++ [x]) = Some (x, q).
Proof.
  unfold g_queue_pop_tail. rewrite reverse_snoc.
  by rewrite reverse_involutive.
Qed.

Lemma g_queue_pop_tail_Some {A} (q q' : list A) x :
  g_queue_pop_tail q = Some (x, q') → q = q' ++ [x].
Proof.
  destruct q as [|y q0] using rev_ind; [done|].
  rewrite g_queue_pop_tail_snoc. by intros [= -> ->].
Qed.

Lemma g_queue_pop_tail_None {A} (q : list A) :
  g_queue_pop_tail q = None → q = [].
Proof.
  destruct q as [|y q0] using rev_ind; [done|].
  by rewrite g_queue_pop_tail_snoc.
Qed.

(** The loop frees the buffers from the tail to the head and leaves the
    queue empty. *)
Lemma drain_out_queue_reverse q : drain_out_queue q = (reverse q, []).
Proof.
  funelim (drain_out_queue q).
  - rewrite (g_queue_pop_tail_Some _ _ _ e), H. simpl.
    by rewrite reverse_snoc.
  - by rewrite (g_queue_pop_tail_None _ e).
Qed.

Example drain_out_queue_example :
  drain_out_queue (enqueue_all [1; 2; 3]%nat []) = ([1; 2; 3]%nat, []).
Proof. by rewrite drain_out_queue_reverse. Qed.

(** What the producer leaves is the reverse of the insertion order. *)
Lemma enqueue_all_reverse bs q : enqueue_all bs q = reverse bs ++ q.
Proof.
  revert q. induction bs as [|b bs IH]; intros q; [done|].
  simpl. rewrite IH. unfold enqueue, g_queue_push_head.
  rewrite reverse_cons, <- app_assoc. done.
Qed.

(** ** The disconnect handler *)

Lemma with_client_lookup rtsp c w :
  clients (with_client rtsp c w) !! rtsp = Some c.
Proof. apply lookup_insert_eq. Qed.

Lemma with_client_twice rtsp c1 c2 w :
  with_client rtsp c2 (with_client rtsp c1 w) = with_client rtsp c2 w.
Proof. unfold with_client, set_clients. simpl. by rewrite insert_insert_eq. Qed.

Lemma freed_buffers_free l : freed_buffers (map G_string_free l) = l.
Proof. induction l as [|x l IH]; [done|]. simpl. by rewrite IH. Qed.

(** If the calls up to some point release nothing and no later call stops a
    watcher, then nothing is released before a watcher is stopped. *)
Lemma stops_before_releases (pre rest l1 l2 : list action) a :
  Forall (λ x, releases x = false) pre →
  Forall (λ x, stops_watcher x = false) rest →
  pre ++ rest = l1 ++ a :: l2 →
  stops_watcher a = true →
  Forall (λ x, releases x = false) l1.
Proof.
  intros Hpre Hrest E Ha.
  apply app_eq_inv in E as [(k & -> & E)|(k & -> & ->)].
  - by apply Forall_app in Hpre as [Hpre _].
  - apply Forall_app in Hrest as [_ Hrest].
    apply Forall_cons_1 in Hrest as [Hrest _]. congruence.
Qed.

Section Teardown.

Variable count_t : Z → Z.

(** The handler is defined on a live client; it makes the calls of
    [teardown_calls] and leaves the state [torn_down]. *)
Lemma client_ev_disconnect_handler_run b rtsp w c :
  clients w !! rtsp = Some c →
  client_ev_disconnect_handler count_t b rtsp w
  = Some ((), torn_down count_t b rtsp w, teardown_calls b rtsp c).
Proof.
  intros H. unfold client_ev_disconnect_handler.
  destruct c as [sk inp q ses [] [] [] []].
  destruct b; (etrans; [run_m|]); apply result_eq.
  1,3: apply world_eq; world_fields; try reflexivity;
    by rewrite !delete_insert_eq.
  all: by rewrite drain_out_queue_reverse.
Qed.

(** C2: the teardown of a live client makes its calls in the order of
    [teardown_calls]; the steps the specification numbers come as 1 to 7,
    one step 8 for each queued buffer, then 9, 10 and 11; and no call
    releases anything before the last watcher is stopped. *)
Theorem teardown_order b rtsp w c :
  clients w !! rtsp = Some c →
  ∃ w' acts,
    client_ev_disconnect_handler count_t b rtsp w = Some ((), w', acts)
    ∧ acts = teardown_calls b rtsp c
    ∧ omap teardown_step acts
      = [1; 2; 3; 4; 5; 6; 7]%nat
        ++ replicate (length (out_queue c)) 8%nat ++ [9; 10; 11]%nat
    ∧ ∀ l1 a l2, acts = l1 ++ a :: l2 → stops_watcher a = true
                 → Forall (λ x, releases x = false) l1.
Proof.
  intros H. rewrite (client_ev_disconnect_handler_run _ _ _ _ H).
  eexists _, _. split; [reflexivity|]. split; [reflexivity|]. split.
  - unfold teardown_calls. rewrite !omap_app.
    replace (omap teardown_step (map G_string_free (reverse (out_queue c))))
      with (replicate (length (out_queue c)) 8%nat).
    2:{ rewrite <- (length_reverse (out_queue c)).
        induction (reverse (out_queue c)) as [|x l IH]; [done|].
        simpl. by rewrite IH. }
    destruct b; simpl; by rewrite ?app_nil_r.
  - intros l1 a l2 E Ha.
    apply (stops_before_releases
             [Ev_io_stop rtsp EV_READ; Ev_io_stop rtsp EV_WRITE;
              Ev_async_stop rtsp; Ev_timer_stop rtsp]
             ([Close_Sock (sock c); Connection_count_dec;
               Rtsp_session_free (session c); Interleaved_free_list rtsp]
              ++ map G_string_free (reverse (out_queue c))
              ++ [G_queue_free rtsp; G_byte_array_free rtsp;
                  G_slice_free rtsp;
                  Fnc_log FNC_LOG_INFO "[client] Client removed"]
              ++ match b with
                 | Cooperative => []
                 | TRISOS => [Sleep 1; Exit 0]
                 end) l1 l2 a); [| |exact E|exact Ha].
    + repeat constructor.
    + repeat (apply Forall_app; split); try (destruct b); repeat constructor.
      all: apply Forall_forall; intros x Hx;
        apply list_elem_of_In, in_map_iff in Hx;
        by destruct Hx as (y & <- & _).
Qed.

(** C3: when the pending buffers of a client were queued in the order
    [bs], each once, its teardown frees exactly those buffers, in that
    order, and none of them twice. *)
Theorem teardown_frees_in_insertion_order b rtsp w c (bs : list nat) :
  clients w !! rtsp = Some c →
  out_queue c = enqueue_all bs [] →
  NoDup bs →
  ∃ w' acts,
    client_ev_disconnect_handler count_t b rtsp w = Some ((), w', acts)
    ∧ freed_buffers acts = bs
    ∧ NoDup (freed_buffers acts).
Proof.
  intros H Hq Hnd. rewrite (client_ev_disconnect_handler_run _ _ _ _ H).
  eexists _, _. split; [reflexivity|].
  assert (E : freed_buffers (teardown_calls b rtsp c) = bs).
  { unfold teardown_calls, freed_buffers. rewrite !omap_app.
    fold (freed_buffers (map G_string_free (reverse (out_queue c)))).
    rewrite freed_buffers_free, Hq, enqueue_all_reverse, app_nil_r,
      reverse_involutive.
    destruct b; simpl; by rewrite app_nil_r. }
  by rewrite E.
Qed.

End Teardown.

Lemma teardown_order_witness :
  ∃ w' acts,
    client_ev_disconnect_handler size_t_64 Cooperative O (sample_world 0)
    = Some ((), w', acts)
    ∧ acts = teardown_calls Cooperative O sample_client
    ∧ omap teardown_step acts
      = [1; 2; 3; 4; 5; 6; 7]%nat
        ++ replicate (length (out_queue sample_client)) 8%nat
        ++ [9; 10; 11]%nat
    ∧ ∀ l1 a l2, acts = l1 ++ a :: l2 → stops_watcher a = true
                 → Forall (λ x, releases x = false) l1.
Proof.
  apply (teardown_order size_t_64 Cooperative O (sample_world 0) sample_client).
  reflexivity.
Defined.

Lemma teardown_frees_in_insertion_order_witness :
  ∃ w' acts,
    client_ev_disconnect_handler size_t_64 Cooperative O
      (with_client O (set_out_queue (enqueue_all [21; 22; 23]%nat [])
                        sample_client) (sample_world 0))
    = Some ((), w', acts)
    ∧ freed_buffers acts = [21; 22; 23]%nat
    ∧ NoDup (freed_buffers acts).
Proof.
  apply (teardown_frees_in_insertion_order size_t_64 Cooperative O
           (with_client O (set_out_queue (enqueue_all [21; 22; 23]%nat [])
                             sample_client) (sample_world 0))
           (set_out_queue (enqueue_all [21; 22; 23]%nat []) sample_client)
           [21; 22; 23]%nat).
  - reflexivity.
  - reflexivity.
  - apply (NoDup_ListNoDup [21; 22; 23]%nat).
    repeat constructor; simpl; intuition discriminate.
Defined.

(** ** Admission and set-up *)

Section Admission.

Variable count_t : Z → Z.
Variable ONE_FORK_MAX_CONNECTION : Z.

Lemma setup_client_run s w :
  setup_client count_t s w
  = Some ((), set_up count_t s w, setup_calls (next_client w)).
Proof.
  unfold setup_client.
  etrans; [run_m|]. apply result_eq; [|reflexivity].
  apply world_eq; world_fields; try reflexivity.
  by rewrite !insert_insert_eq.
Qed.

(** C4: when the counter has reached the ceiling, an accepted connection
    is closed and nothing else happens: the state, with its clients and
    its counter, is the one before. *)
Theorem admission_ceiling b s port fork_ret w :
  ONE_FORK_MAX_CONNECTION ≤ connection_count (srv w) →
  rtsp_client_incoming_cb count_t ONE_FORK_MAX_CONNECTION b (Some s) port
    fork_ret w
  = Some ((), w, [Sock_accept (Some s); Close_Sock s]).
Proof.
  intros H. unfold rtsp_client_incoming_cb.
  rewrite bind_run. unfold emit at 1. rewrite bind_run. unfold get_world at 1.
  rewrite bool_decide_eq_true_2 by done.
  reflexivity.
Qed.

(** C9, amended: for an admitted connection (in the TRISOS build, in the
    child) the set-up leaves the client record of [new_client] at a fresh
    address: the read watcher and the disconnect watcher are started, the
    write watcher is not, and the timer has its callback and the repeat
    value [STREAM_TIMEOUT] but is not started; [ev_timer_again] is not
    among the calls. *)
Theorem setup_leaves_timer_stopped b s port fork_ret w :
  connection_count (srv w) < ONE_FORK_MAX_CONNECTION →
  b = Cooperative ∨ (b = TRISOS ∧ is_Some port ∧ fork_ret = 0) →
  ∃ w' acts c,
    rtsp_client_incoming_cb count_t ONE_FORK_MAX_CONNECTION b (Some s) port
      fork_ret w = Some ((), w', acts)
    ∧ clients w' !! next_client w = Some c
    ∧ c = new_client (next_client w) s
    ∧ connection_count (srv w') = incr count_t (connection_count (srv w))
    ∧ io_active (ev_io_read c) = true
    ∧ io_active (ev_io_write c) = false
    ∧ async_active (ev_sig_disconnect c) = true
    ∧ timer_cb (ev_timeout c) = Some client_ev_timeout_cb
    ∧ timer_repeat (ev_timeout c) = STREAM_TIMEOUT
    ∧ timer_active (ev_timeout c) = false
    ∧ Ev_timer_again (next_client w) ∉ acts.
Proof.
  intros Hlt Hb. unfold rtsp_client_incoming_cb.
  rewrite bind_run. unfold emit at 1. rewrite bind_run. unfold get_world at 1.
  rewrite bool_decide_eq_false_2 by lia.
  destruct Hb as [->|(-> & [p ->] & ->)].
  - rewrite setup_client_run.
    eexists _, _, _. split; [reflexivity|].
    split; [apply lookup_insert_eq|].
    repeat (split; [reflexivity|]).
    intros Hin. apply list_elem_of_In in Hin. simpl in Hin.
    intuition discriminate.
  - rewrite bind_run. unfold new_child_port at 1. rewrite bind_run.
    unfold emit at 1. unfold mret at 1, M_ret at 1.
    rewrite bind_run. unfold fork at 1.
    rewrite bool_decide_eq_true_2 by done.
    rewrite bind_run. unfold free_child_port at 1, emit at 1.
    rewrite bind_run. unfold loop_timer_uninit at 1. rewrite bind_run.
    unfold modify_loop_timer at 1, modify_world at 1, emit at 1.
    rewrite bind_run.
    unfold feng_ports_cleanup at 1, emit at 1.
    rewrite setup_client_run.
    eexists _, _, _. split; [reflexivity|].
    split; [apply lookup_insert_eq|].
    repeat (split; [reflexivity|]).
    intros Hin. apply list_elem_of_In in Hin. simpl in Hin.
    intuition discriminate.
Qed.

End Admission.

(** The TRISOS parent tracks the child it has forked and counts it. *)
Example incoming_parent_example :
  ∃ w acts,
    rtsp_client_incoming_cb size_t_64 4 TRISOS (Some sample_sock)
      (Some {| cpp_pid := 0; cpp_port := 100 |}) 42 (initial_world TRISOS 0)
    = Some ((), w, acts)
    ∧ client_list w = [ {| cpp_pid := 42; cpp_port := 100 |} ]
    ∧ running w = [42%positive]
    ∧ connection_count (srv w) = 1
    ∧ clients w = ∅
    ∧ acts = [Sock_accept (Some sample_sock);
              New_child_port (Some {| cpp_pid := 0; cpp_port := 100 |});
              Fork 42; Connection_count_inc; Close_Sock sample_sock;
              Add_client_list {| cpp_pid := 42; cpp_port := 100 |}].
Proof. eexists _, _. split; [vm_compute; reflexivity|]. by repeat split. Qed.

Lemma admission_ceiling_witness :
  rtsp_client_incoming_cb size_t_64 1 Cooperative (Some sample_sock) None 0
    (sample_world 0)
  = Some ((), sample_world 0,
          [Sock_accept (Some sample_sock); Close_Sock sample_sock]).
Proof.
  apply (admission_ceiling size_t_64 1 Cooperative sample_sock None 0
           (sample_world 0)).
  simpl. lia.
Defined.

(** C9, at an input: the first connection of a worker is admitted and set
    up; the record of the client has a timer that is not active, the set-up
    has not called [ev_timer_again], and the loop does not call the timer
    back, whatever the time. *)
Lemma liveness_timer_not_started :
  rtsp_client_incoming_cb size_t_64 4 Cooperative (Some sample_sock) None 0
    (initial_world Cooperative 0)
  = Some ((), sample_world 0, Sock_accept (Some sample_sock) :: setup_calls O)
  ∧ clients (sample_world 0) !! O = Some sample_client
  ∧ timer_active (ev_timeout sample_client) = false
  ∧ (Ev_timer_again O ∉ Sock_accept (Some sample_sock) :: setup_calls O)
  ∧ ∀ now, loop_step size_t_64 4 Cooperative (E_timeout O now) (sample_world 0)
           = Some ((), sample_world 0, []).
Proof.
  split; [reflexivity|]. split; [reflexivity|]. split; [reflexivity|].
  split; [|reflexivity].
  intros Hin. apply list_elem_of_In in Hin. simpl in Hin.
  intuition discriminate.
Qed.

Lemma setup_leaves_timer_stopped_witness :
  ∃ w' acts c,
    rtsp_client_incoming_cb size_t_64 4 Cooperative (Some sample_sock) None 0
      (initial_world Cooperative 0) = Some ((), w', acts)
    ∧ clients w' !! O = Some c
    ∧ c = new_client O sample_sock
    ∧ connection_count (srv w') = incr size_t_64 0
    ∧ io_active (ev_io_read c) = true
    ∧ io_active (ev_io_write c) = false
    ∧ async_active (ev_sig_disconnect c) = true
    ∧ timer_cb (ev_timeout c) = Some client_ev_timeout_cb
    ∧ timer_repeat (ev_timeout c) = STREAM_TIMEOUT
    ∧ timer_active (ev_timeout c) = false
    ∧ Ev_timer_again O ∉ acts.
Proof.
  apply (setup_leaves_timer_stopped size_t_64 4 Cooperative sample_sock None 0
           (initial_world Cooperative 0)).
  - simpl. lia.
  - left. reflexivity.
Defined.

(** ** The reaper *)

Lemma filter_all {A} (P : A → Prop) `{∀ x, Decision (P x)} (l : list A) :
  Forall P l → filter P l = l.
Proof.
  induction 1 as [|x l Hx _ IH]; [done|].
  by rewrite filter_cons_True, IH.
Qed.

Lemma find_tracked (l : list client_port_pair) pid :
  pid ∈ cpp_pid <$> l →
  ∃ c, List.find (λ c, bool_decide (cpp_pid c = pid)) l = Some c
       ∧ cpp_pid c = pid ∧ c ∈ l.
Proof.
  induction l as [|x l IH]; simpl.
  - intros H. by apply elem_of_nil in H.
  - intros H. destruct (decide (cpp_pid x = pid)) as [E|N].
    + rewrite bool_decide_eq_true_2 by done.
      exists x. split; [done|]. split; [done|]. apply list_elem_of_here.
    + rewrite bool_decide_eq_false_2 by done.
      apply elem_of_cons in H as [H|H]; [congruence|].
      destruct (IH H) as (c & Hf & Hp & Hin).
      exists c. split; [done|]. split; [done|]. by apply list_elem_of_further.
Qed.

Lemma remove_record_filter (l : list client_port_pair) c :
  NoDup (cpp_pid <$> l) → c ∈ l →
  remove_record c l = filter (λ x, cpp_pid x ≠ cpp_pid c) l.
Proof.
  induction l as [|x l IH]; [done|].
  simpl. intros Hnd Hin. apply NoDup_cons in Hnd as [Hx Hnd].
  destruct (decide (x = c)) as [->|N].
  - rewrite filter_cons_False by (intros ?; done).
    symmetry. apply filter_all.
    apply Forall_forall. intros y Hy E. apply Hx.
    rewrite <- E. by apply list_elem_of_fmap_2.
  - apply elem_of_cons in Hin as [->|Hin]; [done|].
    rewrite filter_cons_True.
    + by rewrite IH.
    + intros E. apply Hx. rewrite E. by apply list_elem_of_fmap_2.
Qed.

Lemma occurrences_app {A} `{EqDecision A} (a : A) (l1 l2 : list A) :
  occurrences a (l1 ++ l2) = (occurrences a l1 + occurrences a l2)%nat.
Proof. unfold occurrences. by rewrite filter_app, length_app. Qed.

Lemma length_remove_record (l : list client_port_pair) c :
  c ∈ l → length (remove_record c l) = pred (length l).
Proof.
  induction l as [|x l IH]; intros Hin.
  - by apply elem_of_nil in Hin.
  - simpl. destruct (decide (x = c)) as [->|N]; [done|].
    apply elem_of_cons in Hin as [->|Hin]; [done|].
    simpl. rewrite (IH Hin). destruct l; [by apply elem_of_nil in Hin|done].
Qed.

Section Reaper.
Variable count_t : Z → Z.

(** One turn of the loop on a terminated child that is tracked. *)
Lemma reap_children_step fuel w p zs c w' l :
  zombies w = p :: zs →
  List.find (λ c, bool_decide (cpp_pid c = Zpos p)) (client_list w) = Some c →
  reap_children count_t fuel
    (set_srv (set_connection_count
                (decr count_t (connection_count (srv w))) (srv w))
       (set_client_list (remove_record c (client_list w))
          (set_children (running w) zs w))) = Some ((), w', l) →
  reap_children count_t (S fuel) w
  = Some ((), w',
          [Waitpid (Zpos p); Reduce_client_list c; Connection_count_dec;
           Free_child_port c] ++ l).
Proof.
  intros Hz Hf Hrec. cbn [reap_children].
  etrans.
  { eapply bind_Some.
    { unfold waitpid_any_nohang. rewrite Hz. reflexivity. }
    rewrite bool_decide_eq_true_2 by lia.
    eapply bind_Some.
    { unfold get_client_list_item, get_world. rewrite bind_run.
      unfold mret, M_ret. cbn [client_list set_children]. rewrite Hf.
      reflexivity. }
    cbv beta iota.
    eapply bind_Some; [reflexivity|]. exact Hrec. }
  reflexivity.
Qed.

(** The loop ends on the first call of [waitpid] that finds nothing. *)
Lemma reap_children_done fuel w :
  zombies w = [] →
  reap_children count_t (S fuel) w
  = Some ((), w, [Waitpid (match running w with [] => -1 | _ :: _ => 0 end)]).
Proof.
  intros Hz. cbn [reap_children].
  rewrite bind_run. unfold waitpid_any_nohang at 1. rewrite Hz.
  rewrite bool_decide_eq_false_2 by (destruct (running w); lia).
  reflexivity.
Qed.

Lemma reap_children_run zs : ∀ fuel w,
  zombies w = zs →
  (length zs < fuel)%nat →
  NoDup (cpp_pid <$> client_list w) →
  NoDup zs →
  (∀ p, p ∈ zs → tracked w p) →
  ∃ w' acts,
    reap_children count_t fuel w = Some ((), w', acts)
    ∧ zombies w' = []
    ∧ running w' = running w
    ∧ clients w' = clients w
    ∧ next_client w' = next_client w
    ∧ exit_status w' = exit_status w
    ∧ rtcp_heartbeat (srv w') = rtcp_heartbeat (srv w)
    ∧ loop_timer (srv w') = loop_timer (srv w)
    ∧ client_list w'
      = filter (λ c, cpp_pid c ∉ Zpos <$> zs) (client_list w)
    ∧ connection_count (srv w')
      = Nat.iter (length zs) (decr count_t) (connection_count (srv w))
    ∧ occurrences Connection_count_dec acts = length zs
    ∧ cpp_pid <$> released_records acts = Zpos <$> zs
    ∧ removed_records acts = released_records acts
    ∧ length (client_list w') = (length (client_list w) - length zs)%nat.
Proof.
  induction zs as [|p zs IH]; intros fuel w Hz Hfuel Hnd Hndz Htr.
  - destruct fuel as [|fuel]; [simpl in Hfuel; lia|].
    rewrite (reap_children_done _ _ Hz).
    eexists _, _. split; [reflexivity|].
    repeat split; try done.
    + symmetry. apply filter_all, Forall_forall. intros c _ H.
      by apply elem_of_nil in H.
    + simpl. lia.
  - destruct fuel as [|fuel]; [simpl in Hfuel; lia|].
    destruct (find_tracked (client_list w) (Zpos p)) as (c & Hf & Hp & Hin).
    { apply Htr, list_elem_of_here. }
    apply NoDup_cons in Hndz as [Hpz Hndz].
    edestruct (IH fuel) as (w' & acts & Hrun & H1 & H2 & H3 & H4 & H5 & H6 & H7
                            & H8 & H9 & H10 & H11 & H12 & H13); cycle -1.
    + eexists _, _. split; [exact (reap_children_step _ _ _ _ _ _ _ Hz Hf Hrun)|].
      rewrite H1, H2, H3, H4, H5, H6, H7, H13, H8, H9.
      cbn [zombies running clients next_client exit_status srv client_list
           set_srv set_client_list set_children rtcp_heartbeat loop_timer
           connection_count set_connection_count].
      repeat (split; [done|]).
      split; [|split; [|split; [|split; [|split]]]].
      * rewrite (remove_record_filter _ _ Hnd Hin), list_filter_filter.
        apply list_filter_iff. intros x. rewrite Hp, fmap_cons, not_elem_of_cons.
        tauto.
      * cbn [length]. by rewrite Nat.iter_succ_r.
      * rewrite occurrences_app, H10. reflexivity.
      * change (released_records (?x ++ acts))
          with (c :: released_records acts).
        by rewrite !fmap_cons, H11, Hp.
      * change (released_records (?x ++ acts))
          with (c :: released_records acts).
        change (removed_records (?x ++ acts))
          with (c :: removed_records acts).
        by rewrite H12.
      * rewrite (length_remove_record _ _ Hin). simpl. lia.
    + done.
    + simpl in *. lia.
    + cbn [client_list set_srv set_client_list].
      rewrite (remove_record_filter _ _ Hnd Hin).
      eapply sublist_NoDup; [exact Hnd|].
      apply fmap_sublist, sublist_filter.
    + done.
    + intros q Hq. unfold tracked.
      cbn [client_list set_srv set_client_list].
      rewrite (remove_record_filter _ _ Hnd Hin).
      assert (Hq' : tracked w q) by (apply Htr; by apply list_elem_of_further).
      apply list_elem_of_fmap in Hq' as (x & Hx & Hxl).
      apply list_elem_of_fmap. exists x. split; [done|].
      apply list_elem_of_filter. split; [|done].
      rewrite Hp, <- Hx. intros E. injection E as ->. done.
Qed.

(** C8: when the children that have terminated since the last tick are
    tracked, one record each, a single call of [timer_watcher_cb] is
    defined and waits for all [K] of them: no terminated child is left, the
    table has lost exactly their records, the counter has been decremented
    [K] times, and the [K] records taken out of the table are the ones of
    these children and are the [K] records released. *)
Theorem reaper_completeness w :
  NoDup (cpp_pid <$> client_list w) →
  NoDup (zombies w) →
  (∀ p, p ∈ zombies w → tracked w p) →
  ∃ w' acts,
    timer_watcher_cb count_t w = Some ((), w', acts)
    ∧ zombies w' = []
    ∧ client_list w'
      = filter (λ c, cpp_pid c ∉ Zpos <$> zombies w) (client_list w)
    ∧ (∀ c p, c ∈ client_list w' → p ∈ zombies w → cpp_pid c ≠ Zpos p)
    ∧ length (client_list w')
      = (length (client_list w) - length (zombies w))%nat
    ∧ connection_count (srv w')
      = Nat.iter (length (zombies w)) (decr count_t)
          (connection_count (srv w))
    ∧ occurrences Connection_count_dec acts = length (zombies w)
    ∧ cpp_pid <$> released_records acts = Zpos <$> zombies w
    ∧ removed_records acts = released_records acts.
Proof.
  intros Hnd Hndz Htr.
  destruct (reap_children_run (zombies w) (S (length (zombies w))) w)
    as (w' & acts & Hrun & H1 & H2 & H3 & H4 & H5 & H6 & H7 & H8 & H9 & H10
        & H11 & H12 & H13); try done; [lia|].
  unfold timer_watcher_cb.
  eexists _, _. split.
  { eapply bind_Some; [reflexivity|]. cbv beta.
    eapply bind_Some; [exact Hrun|]. reflexivity. }
  cbn [zombies client_list srv connection_count set_srv set_loop_timer
       set_connection_count app].
  rewrite H1, H13, H8, H9.
  split; [done|]. split; [done|]. split.
  { intros c p Hc Hp E. apply list_elem_of_filter in Hc as [Hc _].
    apply Hc. rewrite E. by apply list_elem_of_fmap_2. }
  split; [done|]. split; [done|]. split.
  { by rewrite occurrences_app, H10, Nat.add_0_r. }
  unfold released_records, removed_records in *.
  rewrite !omap_app, !app_nil_r. done.
Qed.
End Reaper.

Lemma reaper_completeness_witness :
  ∃ w' acts,
    timer_watcher_cb size_t_64 reaper_world = Some ((), w', acts)
    ∧ zombies w' = []
    ∧ client_list w'
      = filter (λ c, cpp_pid c ∉ Zpos <$> zombies reaper_world)
          (client_list reaper_world)
    ∧ (∀ c p, c ∈ client_list w' → p ∈ zombies reaper_world
              → cpp_pid c ≠ Zpos p)
    ∧ length (client_list w')
      = (length (client_list reaper_world) - length (zombies reaper_world))%nat
    ∧ connection_count (srv w')
      = Nat.iter (length (zombies reaper_world)) (decr size_t_64)
          (connection_count (srv reaper_world))
    ∧ occurrences Connection_count_dec acts = length (zombies reaper_world)
    ∧ cpp_pid <$> released_records acts = Zpos <$> zombies reaper_world
    ∧ removed_records acts = released_records acts.
Proof.
  apply (reaper_completeness size_t_64 reaper_world).
  - apply (bool_decide_unpack _). vm_compute. exact I.
  - apply (bool_decide_unpack _). vm_compute. exact I.
  - intros p Hp. unfold tracked. apply (bool_decide_unpack _).
    apply elem_of_cons in Hp as [->|Hp]; [vm_compute; exact I|].
    apply elem_of_cons in Hp as [->|Hp]; [vm_compute; exact I|].
    by apply elem_of_nil in Hp.
Defined.

(** ** The loop: what a step keeps *)

Lemma same_wiring_refl c : same_wiring c c.
Proof. by repeat split. Qed.

Lemma same_wiring_trans c1 c2 c3 :
  same_wiring c1 c2 → same_wiring c2 c3 → same_wiring c1 c3.
Proof.
  intros (H1 & H2 & H3) (H4 & H5 & H6).
  repeat split; congruence.
Qed.

Lemma stable_refl w : stable w w.
Proof.
  repeat split. intros rtsp. destruct (clients w !! rtsp); [|done].
  apply same_wiring_refl.
Qed.

Lemma stable_trans w1 w2 w3 : stable w1 w2 → stable w2 w3 → stable w1 w3.
Proof.
  intros (H1 & H2 & H3) (H4 & H5 & H6).
  split; [congruence|]. split; [congruence|].
  intros rtsp. specialize (H3 rtsp). specialize (H6 rtsp).
  destruct (clients w1 !! rtsp), (clients w2 !! rtsp), (clients w3 !! rtsp);
    try done.
  by eapply same_wiring_trans.
Qed.

Lemma stable_well_formed w w' : stable w w' → well_formed w → well_formed w'.
Proof.
  intros (H1 & _ & H3) Hwf rtsp c' Hc'.
  specialize (H3 rtsp). rewrite Hc' in H3.
  destruct (clients w !! rtsp) as [c|] eqn:Hc; [|done].
  destruct (Hwf _ _ Hc) as (Hlt & Hcb & Hd & Ha).
  destruct H3 as (E1 & E2 & E3).
  split; [by rewrite H1|]. repeat split; congruence.
Qed.

Lemma stable_released w w' rtsp : stable w w' → released rtsp w → released rtsp w'.
Proof.
  intros (H1 & _ & H3) (Hlt & Hn). split; [by rewrite H1|].
  specialize (H3 rtsp). rewrite Hn in H3.
  by destruct (clients w' !! rtsp).
Qed.

(** Preservation, by the shape of the computation. *)
Lemma preserving_ret {A} (a : A) : preserving (mret a).
Proof.
  intros w a' w' l [= <- <- <-]. split; [apply stable_refl|].
  intros rtsp H. by apply elem_of_nil in H.
Qed.

Lemma preserving_bind {A B} (m : M A) (k : A → M B) :
  preserving m → (∀ a, preserving (k a)) → preserving (m ≫= k).
Proof.
  intros Hm Hk w b w' l. rewrite bind_run.
  destruct (m w) as [[[a w1] l1]|] eqn:E1; [|done].
  destruct (k a w1) as [[[b' w2] l2]|] eqn:E2; [|done].
  intros [= <- <- <-].
  destruct (Hm _ _ _ _ E1) as [S1 F1]. destruct (Hk _ _ _ _ _ E2) as [S2 F2].
  split; [by eapply stable_trans|].
  intros rtsp [H|H]%elem_of_app; [by eapply F1|by eapply F2].
Qed.

Lemma preserving_emit a :
  (∀ rtsp, a ≠ G_slice_free rtsp) → preserving (emit a).
Proof.
  intros Ha w [] w' l [= <- <-]. split; [apply stable_refl|].
  intros rtsp H%list_elem_of_singleton. by eapply Ha.
Qed.

Lemma preserving_undefined {A} : preserving (@undefined A).
Proof. by intros w a w' l. Qed.

Lemma preserving_get_world : preserving get_world.
Proof.
  intros w a w' l [= <- <- <-]. split; [apply stable_refl|].
  intros rtsp H. by apply elem_of_nil in H.
Qed.

Lemma preserving_deref rtsp : preserving (deref rtsp).
Proof.
  intros w a w' l. unfold deref. destruct (clients w !! rtsp); [|done].
  intros [= <- <- <-]. split; [apply stable_refl|].
  intros x H. by apply elem_of_nil in H.
Qed.

Lemma preserving_when (c : bool) m : preserving m → preserving (when c m).
Proof. intros Hm. destruct c; [done|apply preserving_ret]. Qed.

Lemma preserving_modify_client rtsp f :
  (∀ c, same_wiring c (f c)) → preserving (modify_client rtsp f).
Proof.
  intros Hf w [] w' l H.
  destruct (clients w !! rtsp) as [c|] eqn:Hc.
  - rewrite (modify_client_run _ _ _ _ Hc) in H. injection H as <- <-.
    split; [|intros r H; by apply elem_of_nil in H].
    repeat split. intros r. cbn [clients with_client set_clients].
    destruct (decide (rtsp = r)) as [<-|N].
    + rewrite lookup_insert_eq, Hc. apply Hf.
    + rewrite lookup_insert_ne by done.
      destruct (clients w !! r); [apply same_wiring_refl|done].
  - by rewrite (modify_client_undefined _ _ _ Hc) in H.
Qed.

Lemma preserving_modify_world f :
  (∀ w, clients (f w) = clients w ∧ next_client (f w) = next_client w
        ∧ exit_status (f w) = exit_status w) →
  preserving (modify_world f).
Proof.
  intros Hf w [] w' l [= <- <-].
  destruct (Hf w) as (E1 & E2 & E3).
  split; [|intros r H; by apply elem_of_nil in H].
  split; [done|]. split; [done|]. intros r. rewrite E1.
  destruct (clients w !! r); [apply same_wiring_refl|done].
Qed.

Lemma preserving_foreach {A} (l : list A) (f : A → M unit) :
  (∀ x, preserving (f x)) → preserving (g_slist_foreach l f).
Proof.
  intros Hf. induction l as [|x l IH]; simpl.
  - apply preserving_ret.
  - apply preserving_bind; [apply Hf|]. intros _. apply IH.
Qed.

Ltac preserving :=
  repeat first
    [ progress intros
    | apply preserving_modify_client; intros []; by repeat split
    | apply preserving_modify_world; intros []; by repeat split
    | apply preserving_emit; intros; discriminate
    | apply preserving_ret
    | apply preserving_when
    | apply preserving_get_world
    | apply preserving_undefined
    | apply preserving_foreach
    | apply preserving_bind ].

Lemma preserving_ev_async_send rtsp : preserving (ev_async_send rtsp).
Proof. unfold ev_async_send. preserving. Qed.

Lemma preserving_ev_timer_again rtsp : preserving (ev_timer_again rtsp).
Proof. unfold ev_timer_again. preserving. Qed.

Lemma preserving_check b s now :
  preserving (check_if_any_rtp_session_timedout b s now).
Proof.
  unfold check_if_any_rtp_session_timedout, fnc_log, rtcp_send_sr.
  destruct b.
  - preserving; apply preserving_ev_async_send.
  - apply preserving_bind; [preserving|]. intros _.
    destruct (_ && _); preserving; apply preserving_ev_async_send.
Qed.

Lemma preserving_client_ev_timeout b d now :
  preserving (client_ev_timeout b d now).
Proof.
  unfold client_ev_timeout, deref.
  apply preserving_bind.
  - apply preserving_deref.
  - intros c. destruct (session c); [|apply preserving_undefined].
    apply preserving_bind.
    + apply preserving_foreach. intros x. apply preserving_check.
    + intros _. apply preserving_ev_timer_again.
Qed.

Lemma preserving_protocol_layer rtsp inp outq s wr tm :
  preserving (protocol_layer rtsp inp outq s wr tm).
Proof. unfold protocol_layer. preserving. Qed.

Section ReaperPreserving.
Variable count_t : Z → Z.
Lemma preserving_reap_children fuel : preserving (reap_children count_t fuel).
Proof.
  induction fuel as [|fuel IH]; [apply preserving_undefined|].
  cbn [reap_children].
  apply preserving_bind.
  { intros w a w' l. unfold waitpid_any_nohang.
    destruct (zombies w); intros [= <- <- <-];
      (split; [|intros x H; apply list_elem_of_singleton in H; discriminate]).
    - apply stable_refl.
    - repeat split. intros x. cbn [clients set_children].
      destruct (clients w !! x); [apply same_wiring_refl|done]. }
  intros pid. destruct (bool_decide (0 < pid)); [|apply preserving_ret].
  apply preserving_bind.
  { unfold get_client_list_item. preserving. }
  intros client. apply preserving_bind; [|intros _; apply IH].
  destruct client as [c|]; [|apply preserving_ret].
  unfold reduce_client_list, connection_count_dec, free_child_port.
  preserving.
Qed.

Lemma preserving_timer_watcher_cb : preserving (timer_watcher_cb count_t).
Proof.
  unfold timer_watcher_cb, modify_loop_timer.
  apply preserving_bind; [apply preserving_get_world|]. intros w.
  apply preserving_bind; [apply preserving_reap_children|]. intros _.
  preserving.
Qed.
End ReaperPreserving.

(** ** The loop: counting teardowns *)

Lemma occurrences_absent {A} `{EqDecision A} (a : A) (l : list A) :
  a ∉ l → occurrences a l = O.
Proof.
  intros H. unfold occurrences.
  induction l as [|x l IH]; [done|].
  apply not_elem_of_cons in H as [Hx Hl].
  rewrite filter_cons_False by congruence. by apply IH.
Qed.

Lemma occurrences_cons {A} `{EqDecision A} (a x : A) (l : list A) :
  occurrences a (x :: l)
  = ((if decide (x = a) then 1 else 0) + occurrences a l)%nat.
Proof.
  unfold occurrences. rewrite filter_cons. by destruct (decide (x = a)).
Qed.

Lemma occurrences_free_buffers a (l : list nat) :
  (∀ b, a ≠ G_string_free b) → occurrences a (map G_string_free l) = O.
Proof.
  intros Ha. apply occurrences_absent.
  intros (b & E & _)%list_elem_of_In%in_map_iff. by eapply Ha.
Qed.

Lemma teardown_calls_free b rtsp c x :
  occurrences (G_slice_free x) (teardown_calls b rtsp c)
  = if decide (rtsp = x) then 1%nat else O.
Proof.
  unfold teardown_calls.
  rewrite !occurrences_app, occurrences_free_buffers by (intros; discriminate).
  rewrite !occurrences_cons.
  repeat (rewrite decide_False by discriminate).
  rewrite (decide_False (P := Fnc_log _ _ = _)) by discriminate.
  destruct (decide (G_slice_free rtsp = G_slice_free x)) as [E|N].
  - injection E as ->. rewrite (decide_True (P := x = x)) by done.
    destruct b; reflexivity.
  - rewrite (decide_False (P := rtsp = x)) by congruence.
    destruct b; reflexivity.
Qed.

Lemma teardown_calls_dec b rtsp c :
  occurrences Connection_count_dec (teardown_calls b rtsp c) = 1%nat.
Proof.
  unfold teardown_calls.
  rewrite !occurrences_app, occurrences_free_buffers by (intros; discriminate).
  destruct b; reflexivity.
Qed.

Lemma calls_of_tagged (e : event) (l : list action) :
  (map (pair e) l).*2 = l.
Proof. induction l as [|a l IH]; [done|]. simpl. f_equal. apply IH. Qed.

Lemma teardowns_app e (l : list action) x h :
  teardowns x (map (pair e) l ++ h)
  = (occurrences (G_slice_free x) l + teardowns x h)%nat.
Proof.
  unfold teardowns. by rewrite fmap_app, occurrences_app, calls_of_tagged.
Qed.

Lemma decrements_for_app e (l : list action) x h :
  decrements_for x (map (pair e) l ++ h)
  = ((if decide (e = E_async x) then occurrences Connection_count_dec l else O)
     + decrements_for x h)%nat.
Proof.
  unfold decrements_for. rewrite occurrences_app. f_equal.
  induction l as [|a l IH]; [by destruct (decide _)|].
  simpl. rewrite !occurrences_cons, IH.
  destruct (decide (e = E_async x)) as [->|N].
  - destruct (decide (a = Connection_count_dec)) as [->|Na].
    + by rewrite decide_True.
    + rewrite decide_False; [done|]. intros [= ->]. done.
  - rewrite decide_False; [done|]. intros [= -> ->]. done.
Qed.

Lemma run_app count_t MAX b evs1 evs2 w :
  run count_t MAX b (evs1 ++ evs2) w
  = match run count_t MAX b evs1 w with
    | Some (w1, h1) =>
        match run count_t MAX b evs2 w1 with
        | Some (w2, h2) => Some (w2, h1 ++ h2)
        | None => None
        end
    | None => None
    end.
Proof.
  revert w. induction evs1 as [|e evs1 IH]; intros w; simpl.
  - by destruct (run _ _ _ evs2 w) as [[w2 h2]|].
  - destruct (loop_step _ _ _ e w) as [[[[] w1] l]|]; [|done].
    rewrite IH. destruct (run _ _ _ evs1 w1) as [[w2 h1]|]; [|done].
    destruct (run _ _ _ evs2 w2) as [[w3 h2]|]; [|done].
    by rewrite app_assoc.
Qed.

(** ** The loop: at most one teardown *)

Lemma well_formed_initial b hb : well_formed (initial_world b hb).
Proof.
  intros rtsp c H. assert (E : clients (initial_world b hb) = ∅)
    by (by destruct b).
  by rewrite E, lookup_empty in H.
Qed.

(** A step that changes only fields other than the clients. *)
Lemma well_formed_same_clients w w' :
  clients w' = clients w → next_client w' = next_client w →
  well_formed w → well_formed w'.
Proof. intros E1 E2 H rtsp c. rewrite E1, E2. apply H. Qed.

Lemma released_same_clients w w' rtsp :
  clients w' = clients w → next_client w' = next_client w →
  released rtsp w → released rtsp w'.
Proof. unfold released. by intros -> ->. Qed.

Section LoopInvariant.

Variable count_t : Z → Z.
Variable ONE_FORK_MAX_CONNECTION : Z.
Variable b : build.


(** The set-up gives out the next address. *)
Lemma set_up_well_formed s w : well_formed w → well_formed (set_up count_t s w).
Proof.
  intros H rtsp c. unfold set_up. world_fields.
  destruct (decide (next_client w = rtsp)) as [<-|N].
  - rewrite lookup_insert_eq. intros [= <-]. split; [lia|]. by repeat split.
  - rewrite lookup_insert_ne by done. intros Hc.
    destruct (H _ _ Hc). split; [lia|done].
Qed.

Lemma set_up_released s w rtsp : released rtsp w → released rtsp (set_up count_t s w).
Proof.
  intros [Hlt Hn]. unfold released, set_up. world_fields.
  split; [lia|]. rewrite lookup_insert_ne by lia. done.
Qed.

(** What the admission does to the invariants. *)
Lemma incoming_spec accepted port fork_ret w w' l :
  rtsp_client_incoming_cb count_t ONE_FORK_MAX_CONNECTION b accepted port
    fork_ret w = Some ((), w', l) →
  (well_formed w → well_formed w')
  ∧ (∀ rtsp, released rtsp w → released rtsp w')
  ∧ (∀ rtsp, G_slice_free rtsp ∉ l).
Proof.
  unfold rtsp_client_incoming_cb.
  rewrite bind_run. unfold emit at 1.
  assert (Hsame : ∀ w1 (l1 : list action),
    clients w1 = clients w → next_client w1 = next_client w →
    (∀ rtsp, G_slice_free rtsp ∉ l1) →
    (well_formed w → well_formed w1)
    ∧ (∀ rtsp, released rtsp w → released rtsp w1)
    ∧ (∀ rtsp, G_slice_free rtsp ∉ l1)).
  { intros w1 l1 E1 E2 Hl. split; [by apply well_formed_same_clients|].
    split; [|done]. intros rtsp. by apply released_same_clients. }
  assert (Hnew : ∀ s w0 (l1 : list action),
    clients w0 = clients w → next_client w0 = next_client w →
    (∀ rtsp, G_slice_free rtsp ∉ l1) →
    (well_formed w → well_formed (set_up count_t s w0))
    ∧ (∀ rtsp, released rtsp w → released rtsp (set_up count_t s w0))
    ∧ (∀ rtsp, G_slice_free rtsp ∉ l1)).
  { intros s w0 l1 E1 E2 Hl. split; [|split; [|done]].
    - intros H. apply set_up_well_formed. revert H.
      by apply well_formed_same_clients.
    - intros rtsp H. apply set_up_released. revert H.
      by apply released_same_clients. }
  assert (Hno : ∀ l1 : list action,
    Forall (λ a, ∀ rtsp, a ≠ G_slice_free rtsp) l1 →
    ∀ rtsp, G_slice_free rtsp ∉ l1).
  { intros l1 Hl rtsp Hin. rewrite Forall_forall in Hl. by eapply Hl. }
  destruct accepted as [s|].
  2:{ intros [= <- <-]. apply Hsame; try done.
      apply Hno. repeat constructor; discriminate. }
  rewrite bind_run. unfold get_world at 1.
  destruct (bool_decide _).
  { intros [= <- <-]. apply Hsame; try done.
    apply Hno. repeat constructor; discriminate. }
  destruct b.
  { rewrite setup_client_run. intros [= <- <-]. apply Hnew; try done.
    apply Hno. unfold setup_calls. repeat constructor; discriminate. }
  rewrite bind_run. unfold new_child_port at 1. rewrite bind_run.
  unfold emit at 1. unfold mret at 1, M_ret at 1.
  destruct port as [p|].
  2:{ intros [= <- <-]. apply Hsame; try done.
      apply Hno. repeat constructor; discriminate. }
  rewrite bind_run. unfold fork at 1.
  destruct (bool_decide (fork_ret = 0)) eqn:E0.
  { rewrite bind_run. unfold free_child_port at 1, emit at 1.
    rewrite bind_run. unfold loop_timer_uninit at 1. rewrite bind_run.
    unfold modify_loop_timer at 1, modify_world at 1, emit at 1.
    rewrite bind_run.
    unfold feng_ports_cleanup at 1, emit at 1.
    rewrite setup_client_run. intros [= <- <-].
    apply Hnew; try (by destruct fork_ret).
    apply Hno. unfold setup_calls. repeat constructor; discriminate. }
  destruct (bool_decide (0 < fork_ret)).
  - intros [= <- <-]. apply Hsame; try (by destruct fork_ret).
    apply Hno. repeat constructor; discriminate.
  - intros [= <- <-]. apply Hsame; try (by destruct fork_ret).
    apply Hno. repeat constructor; discriminate.
Qed.

(** The record of a client whose pending request is being served. *)
Lemma clear_sent_run rtsp w c :
  clients w !! rtsp = Some c →
  ∃ c', clear_sent rtsp w = Some ((), with_client rtsp c' w, [])
        ∧ sock c' = sock c ∧ session c' = session c
        ∧ out_queue c' = out_queue c.
Proof.
  intros H. unfold clear_sent. rewrite (modify_client_run _ _ _ _ H).
  eexists. split; [reflexivity|]. by repeat split.
Qed.

Lemma torn_down_well_formed rtsp c w :
  well_formed w →
  well_formed (torn_down count_t b rtsp (with_client rtsp c w)).
Proof.
  intros H x cx. destruct b; world_fields; rewrite delete_insert_eq;
    (destruct (decide (rtsp = x)) as [<-|N];
      [by rewrite lookup_delete_eq|rewrite lookup_delete_ne by done; apply H]).
Qed.

Lemma torn_down_released rtsp c w x :
  released x w ∨ (x = rtsp ∧ (rtsp < next_client w)%nat) →
  released x (torn_down count_t b rtsp (with_client rtsp c w)).
Proof.
  unfold released.
  intros H. destruct b; world_fields; rewrite delete_insert_eq;
    (destruct H as [[Hlt Hn]|[-> Hlt]];
      [split; [done|]; destruct (decide (rtsp = x)) as [<-|N];
         [by rewrite lookup_delete_eq|by rewrite lookup_delete_ne]
      |split; [done|by rewrite lookup_delete_eq]]).
Qed.

(** Serving the disconnect watcher of a client: either its teardown runs,
    once, or nothing happens. *)
Lemma serve_async_spec rtsp w w' l :
  well_formed w →
  serve count_t ONE_FORK_MAX_CONNECTION b (E_async rtsp) w = Some ((), w', l) →
  (∃ c, is_Some (clients w !! rtsp)
        ∧ l = teardown_calls b rtsp c
        ∧ well_formed w'
        ∧ released rtsp w'
        ∧ ∀ x, released x w → released x w')
  ∨ (w' = w ∧ l = []).
Proof.
  intros Hwf. cbn [serve].
  destruct (clients w !! rtsp) as [c|] eqn:Hc; [|intros [= <- <-]; by right].
  destruct (Hwf _ _ Hc) as (Hlt & Hcb & Hd & Ha). rewrite Hcb, Hd, Ha.
  destruct (async_sent (ev_sig_disconnect c)); [|intros [= <- <-]; by right].
  cbn [andb]. rewrite bind_run.
  destruct (clear_sent_run _ _ _ Hc) as (c' & -> & _).
  rewrite (client_ev_disconnect_handler_run _ _ _ _ c')
    by apply with_client_lookup.
  intros [= <- <-]. left. exists c'.
  split; [done|]. split; [done|].
  split; [by apply torn_down_well_formed|].
  split; [apply torn_down_released; by right|].
  intros x Hx. apply torn_down_released. by left.
Qed.

(** One step of the loop and the invariants. *)
Lemma loop_step_spec e w w' l :
  well_formed w →
  loop_step count_t ONE_FORK_MAX_CONNECTION b e w = Some ((), w', l) →
  well_formed w'
  ∧ (∀ x, released x w → released x w')
  ∧ ((∃ rtsp c, e = E_async rtsp ∧ is_Some (clients w !! rtsp)
                ∧ l = teardown_calls b rtsp c ∧ released rtsp w')
     ∨ ((∀ x, G_slice_free x ∉ l) ∧ (∀ x, e = E_async x → l = []))).
Proof.
  intros Hwf. unfold loop_step.
  assert (Hnil : ∀ x, G_slice_free x ∉ @nil action)
    by (intros x H; by apply elem_of_nil in H).
  destruct (exit_status w) eqn:Hex.
  { intros [= <- <-]. split; [done|]. split; [done|]. right. by split. }
  assert (Hpres : ∀ m : M unit, preserving m → m w = Some ((), w', l) →
    (∀ x, e ≠ E_async x) →
    well_formed w'
    ∧ (∀ x, released x w → released x w')
    ∧ ((∃ rtsp c, e = E_async rtsp ∧ is_Some (clients w !! rtsp)
                  ∧ l = teardown_calls b rtsp c ∧ released rtsp w')
       ∨ ((∀ x, G_slice_free x ∉ l) ∧ (∀ x, e = E_async x → l = [])))).
  { intros m Hm Hrun He. destruct (Hm _ _ _ _ Hrun) as [Hst Hfree].
    split; [by eapply stable_well_formed|].
    split; [intros x; by apply stable_released|].
    right. split; [done|]. intros x E. by destruct (He x). }
  destruct e as [accepted port fork_ret|rtsp inp outq s wr tm|rtsp|rtsp|rtsp now|];
    cbn [serve].
  - intros H. destruct (incoming_spec _ _ _ _ _ _ H) as (H1 & H2 & H3).
    split; [by apply H1|]. split; [done|]. right. split; [done|]. discriminate.
  - destruct (clients w !! rtsp) as [c|].
    2:{ intros [= <- <-]. split; [done|]. split; [done|]. right. by split. }
    destruct (_ || _).
    2:{ intros [= <- <-]. split; [done|]. split; [done|]. right. by split. }
    intros H. eapply Hpres; [apply preserving_protocol_layer|exact H|discriminate].
  - intros H. eapply Hpres; [apply preserving_ev_async_send|exact H|discriminate].
  - intros H. destruct (serve_async_spec _ _ _ _ Hwf H)
      as [(c & Hl & -> & Hw & Hr & Hrs)|[-> ->]].
    + split; [done|]. split; [done|]. left. by exists rtsp, c.
    + split; [done|]. split; [done|]. right. by split.
  - destruct (clients w !! rtsp) as [c|].
    2:{ intros [= <- <-]. split; [done|]. split; [done|]. right. by split. }
    destruct (timer_cb (ev_timeout c)) as [[]|], (timer_data (ev_timeout c)),
      (timer_active (ev_timeout c));
      try (intros [= <- <-]; split; [done|]; split; [done|]; right; by split).
    intros H. eapply Hpres; [apply preserving_client_ev_timeout|exact H|discriminate].
  - destruct (timer_cb (loop_timer (srv w))) as [[]|],
      (timer_active (loop_timer (srv w)));
      try (intros [= <- <-]; split; [done|]; split; [done|]; right; by split).
    intros H. eapply Hpres; [apply preserving_timer_watcher_cb|exact H|discriminate].
Qed.

(** A released record is not torn down again. *)
Lemma run_released x evs : ∀ w w' h,
  well_formed w → released x w →
  run count_t ONE_FORK_MAX_CONNECTION b evs w = Some (w', h) →
  teardowns x h = O ∧ decrements_for x h = O ∧ released x w'.
Proof.
  induction evs as [|e evs IH]; intros w w' h Hwf Hrel; simpl.
  - intros [= <- <-]. split; [done|]. split; done.
  - destruct (loop_step _ _ _ e w) as [[[[] w1] l]|] eqn:Hstep; [|done].
    destruct (run _ _ _ evs w1) as [[w2 h2]|] eqn:Hrun; [|done].
    intros [= <- <-].
    destruct (loop_step_spec _ _ _ _ Hwf Hstep) as (Hwf1 & Hrel1 & Hl).
    destruct (IH _ _ _ Hwf1 (Hrel1 _ Hrel) Hrun) as (IH1 & IH2 & IH3).
    rewrite teardowns_app, decrements_for_app, IH1, IH2.
    split; [|split; [|done]].
    + destruct Hl as [(rtsp & c & -> & [c0 Hlive] & -> & _)|[Hfree _]].
      * rewrite teardown_calls_free, decide_False; [done|].
        intros ->. destruct Hrel as [_ Hn]. congruence.
      * by rewrite occurrences_absent.
    + destruct (decide (e = E_async x)) as [->|N]; [|done].
      destruct Hl as [(rtsp & c & [= <-] & [c0 Hlive] & _)|[_ Hnil]].
      * destruct Hrel as [_ Hn]. congruence.
      * by rewrite (Hnil x).
Qed.

(** The teardown of a client runs at most once in a run, and the counter
    is decremented on its behalf as often as it runs. *)
Lemma run_at_most_once x evs : ∀ w w' h,
  well_formed w →
  run count_t ONE_FORK_MAX_CONNECTION b evs w = Some (w', h) →
  well_formed w'
  ∧ (teardowns x h ≤ 1)%nat
  ∧ decrements_for x h = teardowns x h
  ∧ (teardowns x h = 1%nat → released x w').
Proof.
  induction evs as [|e evs IH]; intros w w' h Hwf; simpl.
  - intros [= <- <-]. change (teardowns x []) with O.
    split; [done|]. split; [lia|]. split; [done|]. discriminate.
  - destruct (loop_step _ _ _ e w) as [[[[] w1] l]|] eqn:Hstep; [|done].
    destruct (run _ _ _ evs w1) as [[w2 h2]|] eqn:Hrun; [|done].
    intros [= <- <-].
    destruct (loop_step_spec _ _ _ _ Hwf Hstep) as (Hwf1 & Hrel1 & Hl).
    destruct (IH _ _ _ Hwf1 Hrun) as (IH0 & IH1 & IH2 & IH3).
    split; [done|].
    rewrite teardowns_app, decrements_for_app.
    destruct Hl as [(rtsp & c & -> & Hlive & -> & Hrel)|[Hfree Hnil]].
    + rewrite teardown_calls_free, teardown_calls_dec.
      destruct (decide (rtsp = x)) as [->|N].
      * destruct (run_released _ _ _ _ _ Hwf1 Hrel Hrun) as (R1 & R2 & R3).
        rewrite R1, R2, decide_True by done.
        split; [lia|]. split; [done|]. intros _. exact R3.
      * rewrite (decide_False (P := E_async rtsp = E_async x)) by congruence.
        simpl. split; [done|]. split; done.
    + rewrite (occurrences_absent _ _ (Hfree x)).
      destruct (decide (e = E_async x)) as [->|N].
      * rewrite (Hnil x) by done. simpl. split; [done|]. split; done.
      * simpl. split; [done|]. split; done.
Qed.

(** Requests on a live client, then its watcher is served: one teardown. *)
Lemma sends_then_serve x n : ∀ w c,
  well_formed w → exit_status w = None →
  clients w !! x = Some c →
  (n = O → async_sent (ev_sig_disconnect c) = true) →
  ∃ w' h,
    run count_t ONE_FORK_MAX_CONNECTION b
      (replicate n (E_send x) ++ [E_async x]) w = Some (w', h)
    ∧ teardowns x h = 1%nat ∧ decrements_for x h = 1%nat.
Proof.
  induction n as [|n IH]; intros w c Hwf Hex Hc Hsent.
  - cbn [replicate app run]. unfold loop_step. rewrite Hex. cbn [serve].
    destruct (Hwf _ _ Hc) as (Hlt & Hcb & Hd & Ha).
    rewrite Hc, Hcb, Hd, Ha, Hsent by done. cbn [andb].
    rewrite bind_run.
    destruct (clear_sent_run _ _ _ Hc) as (c' & -> & _).
    rewrite (client_ev_disconnect_handler_run _ _ _ _ c')
      by apply with_client_lookup.
    eexists _, _. split; [reflexivity|]. cbn [app].
    rewrite teardowns_app, decrements_for_app, teardown_calls_free,
      teardown_calls_dec, !decide_True by done.
    done.
  - cbn [replicate app run]. unfold loop_step at 1. rewrite Hex. cbn [serve].
    rewrite (ev_async_send_run _ _ _ Hc).
    destruct (IH (with_client x (raise_sent c) w) (raise_sent c))
      as (w' & h & -> & H1 & H2).
    + eapply stable_well_formed; [|exact Hwf].
      eapply preserving_ev_async_send, ev_async_send_run, Hc.
    + done.
    + apply with_client_lookup.
    + done.
    + eexists _, _. split; [reflexivity|].
      rewrite teardowns_app, decrements_for_app, H1, H2.
      rewrite decide_False by discriminate.
      rewrite occurrences_absent; [done|].
      intros H%list_elem_of_singleton. discriminate.
Qed.

(** C1: in every run of the loop from the start of the worker, however
    the requests for the disconnect of a client are interleaved with the
    other events, the teardown of the client runs at most once and the
    counter is decremented on its behalf exactly as often; and wherever the
    client is alive, any number [n >= 1] of requests followed by the loop
    serving its disconnect watcher make that exactly once. *)
Theorem at_most_once_teardown heartbeat evs w h x :
  run count_t ONE_FORK_MAX_CONNECTION b evs (initial_world b heartbeat)
  = Some (w, h) →
  (teardowns x h ≤ 1)%nat
  ∧ decrements_for x h = teardowns x h
  ∧ (is_Some (clients w !! x) → exit_status w = None →
     ∀ n, (1 ≤ n)%nat →
       ∃ w' h',
         run count_t ONE_FORK_MAX_CONNECTION b
           (evs ++ replicate n (E_send x) ++ [E_async x])
           (initial_world b heartbeat) = Some (w', h ++ h')
         ∧ teardowns x (h ++ h') = 1%nat
         ∧ decrements_for x (h ++ h') = 1%nat).
Proof.
  intros Hrun.
  destruct (run_at_most_once x _ _ _ _ (well_formed_initial b heartbeat) Hrun)
    as (Hwf & H1 & H2 & H3).
  split; [done|]. split; [done|].
  intros [c Hc] Hex n Hn.
  destruct (sends_then_serve x n w c Hwf Hex Hc) as (w' & h' & Hrun' & T & D);
    [lia|].
  exists w', h'. rewrite run_app, Hrun, Hrun'. split; [done|].
  assert (T0 : teardowns x h = O).
  { destruct (teardowns x h) as [|[|k]] eqn:E; [done| |lia].
    destruct (H3 eq_refl) as [_ Hn']. congruence. }
  unfold teardowns, decrements_for in *.
  rewrite fmap_app, !occurrences_app. lia.
Qed.

End LoopInvariant.

Lemma at_most_once_teardown_witness :
  ∃ w h,
    run size_t_64 4 Cooperative sample_events (initial_world Cooperative 0) = Some (w, h)
    ∧ (teardowns O h ≤ 1)%nat
    ∧ decrements_for O h = teardowns O h
    ∧ (is_Some (clients w !! O) → exit_status w = None →
       ∀ n, (1 ≤ n)%nat →
         ∃ w' h',
           run size_t_64 4 Cooperative
             (sample_events ++ replicate n (E_send O) ++ [E_async O])
             (initial_world Cooperative 0) = Some (w', h ++ h')
           ∧ teardowns O (h ++ h') = 1%nat
           ∧ decrements_for O (h ++ h') = 1%nat).
Proof.
  eexists _, _. split; [vm_compute; reflexivity|].
  apply (at_most_once_teardown size_t_64 4 Cooperative 0 sample_events).
  vm_compute. reflexivity.
Defined.

(** The sample run has torn the client down once and left no record. *)
Example sample_run_outcome :
  ∃ w h,
    run size_t_64 4 Cooperative sample_events (initial_world Cooperative 0) = Some (w, h)
    ∧ teardowns O h = 1%nat
    ∧ decrements_for O h = 1%nat
    ∧ clients w = ∅
    ∧ connection_count (srv w) = 0.
Proof. eexists _, _. split; [vm_compute; reflexivity|]. by repeat split. Qed.

(** ** The session timeout check, further *)

Lemma not_soft_expired_stored s now :
  media_source s ≠ MS_live → ¬ soft_expired s now.
Proof. by intros H [? _]. Qed.

(** X1: the tick never sends a BYE to a session whose source is not live,
    whatever the time; the hard timeout applies to it all the same: when
    the session is hard-expired the tick requests the disconnect of its
    client. *)
Theorem stored_source_kicked_without_bye b (s : RTP_session) now w c :
  media_source s ≠ MS_live →
  clients w !! rtp_client s = Some c →
  ∃ w' acts,
    check_if_any_rtp_session_timedout b s now w = Some ((), w', acts)
    ∧ (∀ x, Rtcp_send_sr x BYE ∉ acts)
    ∧ (hard_expired b s now → Ev_async_send (rtp_client s) ∈ acts).
Proof.
  intros Hs Hc. pose proof (not_soft_expired_stored s now Hs) as Hn.
  destruct b.
  - rewrite (check_cooperative_run _ _ _ _ Hc).
    eexists _, _. split; [reflexivity|].
    rewrite (decide_False (P := soft_expired s now)) by done.
    split.
    + intros x Hin%list_elem_of_In.
      destruct (decide (stream_timed_out s now)); simpl in Hin;
        intuition discriminate.
    + intros Hh. simpl in Hh. rewrite decide_True by done.
      apply list_elem_of_In. simpl. tauto.
  - rewrite (check_trisos_run _ _ _ _ Hc).
    eexists _, _. split; [reflexivity|].
    rewrite (decide_False (P := soft_expired s now)) by done.
    split.
    + intros x Hin%list_elem_of_In.
      destruct (decide (hard_expired TRISOS s now));
        destruct (decide (heartbeat_lost w s now)); simpl in Hin;
        intuition discriminate.
    + intros Hh. rewrite decide_True by done.
      apply list_elem_of_In. simpl. tauto.
Qed.

Lemma stored_source_kicked_without_bye_witness :
  ∃ w' acts,
    check_if_any_rtp_session_timedout Cooperative (stored_session 0 0 0) 12
      (sample_world 0) = Some ((), w', acts)
    ∧ (∀ x, Rtcp_send_sr x BYE ∉ acts)
    ∧ (hard_expired Cooperative (stored_session 0 0 0) 12
       → Ev_async_send O ∈ acts).
Proof.
  apply (stored_source_kicked_without_bye Cooperative (stored_session 0 0 0) 12
           (sample_world 0) sample_client).
  - discriminate.
  - reflexivity.
Defined.

(** X2: in the TRISOS build with heartbeat supervision on, a session whose
    last RTCP report is 60 seconds old or more is disconnected although
    packets were sent to it less than [LIVE_STREAM_BYE_TIMEOUT] seconds
    ago: the tick sends the SDES report, logs the loss and requests the
    disconnect of the client, and sends no BYE. *)
Theorem lost_heartbeat_evicts_despite_traffic (s : RTP_session) now w c :
  rtcp_heartbeat (srv w) ≠ 0 →
  60 ≤ now - last_rtcp_read_time s →
  now - last_packet_send_time s < LIVE_STREAM_BYE_TIMEOUT →
  clients w !! rtp_client s = Some c →
  check_if_any_rtp_session_timedout TRISOS s now w
  = Some ((), with_client (rtp_client s) (raise_sent c) w,
          Rtcp_send_sr (rtp_addr s) SDES :: lost_calls s).
Proof.
  intros Hh Hr Hp Hc. rewrite (check_trisos_run _ _ _ _ Hc).
  assert (Hns : ¬ soft_expired s now) by (intros [_ H]; lia).
  assert (Hnh : ¬ hard_expired TRISOS s now).
  { intros [_ H]. unfold stream_timed_out, STREAM_TIMEOUT,
      LIVE_STREAM_BYE_TIMEOUT in *. lia. }
  assert (Hl : heartbeat_lost w s now) by done.
  rewrite (decide_True (P := _ ∨ _)) by (by right).
  rewrite (decide_False (P := soft_expired s now)) by done.
  rewrite (decide_False (P := hard_expired TRISOS s now)) by done.
  rewrite (decide_True (P := heartbeat_lost w s now)) by done.
  reflexivity.
Qed.

Lemma lost_heartbeat_evicts_despite_traffic_witness :
  check_if_any_rtp_session_timedout TRISOS (live_session 99 40 0) 100
    (sample_world 1)
  = Some ((), with_client O (raise_sent sample_client) (sample_world 1),
          Rtcp_send_sr 100%nat SDES :: lost_calls (live_session 99 40 0)).
Proof.
  apply (lost_heartbeat_evicts_despite_traffic (live_session 99 40 0) 100
           (sample_world 1) sample_client).
  - discriminate.
  - vm_compute. discriminate.
  - reflexivity.
  - reflexivity.
Defined.

(** X3: a session that was sent a packet less than
    [LIVE_STREAM_BYE_TIMEOUT] seconds ago and, in the TRISOS build, has not
    lost its heartbeat, is left alone by the tick: the state is unchanged
    and there is no log, no BYE and no disconnect request; the TRISOS build
    sends its SDES report and nothing else.  The client record is not
    looked at. *)
Theorem healthy_session_left_alone b (s : RTP_session) now w :
  now - last_packet_send_time s < LIVE_STREAM_BYE_TIMEOUT →
  (b = TRISOS → ¬ heartbeat_lost w s now) →
  check_if_any_rtp_session_timedout b s now w
  = Some ((), w,
          match b with
          | Cooperative => []
          | TRISOS => [Rtcp_send_sr (rtp_addr s) SDES]
          end).
Proof.
  intros Hp Hl. unfold check_if_any_rtp_session_timedout.
  rewrite bind_run.
  rewrite (bool_decide_eq_false_2 (LIVE_STREAM_BYE_TIMEOUT ≤ _)) by lia.
  rewrite andb_false_r. cbn [when].
  assert (Hst : ¬ STREAM_TIMEOUT ≤ now - last_packet_send_time s)
    by (unfold STREAM_TIMEOUT, LIVE_STREAM_BYE_TIMEOUT in *; lia).
  rewrite (bool_decide_eq_false_2 _ Hst), andb_false_r.
  destruct b; [reflexivity|].
  unfold_m. rewrite <- bool_decide_and.
  rewrite (bool_decide_eq_false_2 _ (Hl eq_refl)). reflexivity.
Qed.

Lemma healthy_session_left_alone_witness :
  check_if_any_rtp_session_timedout TRISOS (live_session 98 90 0) 100
    (sample_world 1)
  = Some ((), sample_world 1, [Rtcp_send_sr 100%nat SDES]).
Proof.
  apply (healthy_session_left_alone TRISOS (live_session 98 90 0) 100
           (sample_world 1)).
  - reflexivity.
  - intros _ [_ H]. vm_compute in H. by apply H.
Defined.



(** ** What a callback leaves alone *)

Section Keeps.

Variable R : world → list action → world → Prop.
Hypothesis R_refl : ∀ w, R w [] w.
Hypothesis R_trans : ∀ w1 l1 w2 l2 w3,
  R w1 l1 w2 → R w2 l2 w3 → R w1 (l1 ++ l2) w3.

Lemma keeps_ret {A} (a : A) : keeps R (mret a).
Proof. intros w a' w' l [= <- <- <-]. apply R_refl. Qed.

Lemma keeps_bind {A B} (m : M A) (k : A → M B) :
  keeps R m → (∀ a, keeps R (k a)) → keeps R (m ≫= k).
Proof.
  intros Hm Hk w b w' l. rewrite bind_run.
  destruct (m w) as [[[a w1] l1]|] eqn:E1; [|done].
  destruct (k a w1) as [[[b' w2] l2]|] eqn:E2; [|done].
  intros [= <- <- <-]. eapply R_trans; [by eapply Hm|by eapply Hk].
Qed.

Lemma keeps_undefined {A} : keeps R (@undefined A).
Proof. by intros w a w' l. Qed.

Lemma keeps_get_world : keeps R get_world.
Proof. intros w a w' l [= <- <- <-]. apply R_refl. Qed.

Lemma keeps_deref rtsp : keeps R (deref rtsp).
Proof.
  intros w a w' l. unfold deref. destruct (clients w !! rtsp); [|done].
  intros [= <- <- <-]. apply R_refl.
Qed.

Lemma keeps_when (c : bool) m : keeps R m → keeps R (when c m).
Proof. intros Hm. destruct c; [done|apply keeps_ret]. Qed.

Lemma keeps_foreach {A} (l : list A) (f : A → M unit) :
  (∀ x, keeps R (f x)) → keeps R (g_slist_foreach l f).
Proof.
  intros Hf. induction l as [|x l IH]; simpl.
  - apply keeps_ret.
  - apply keeps_bind; [apply Hf|]. intros _. apply IH.
Qed.

Lemma keeps_emit a : (∀ w, R w [a] w) → keeps R (emit a).
Proof. intros Ha w [] w' l [= <- <-]. apply Ha. Qed.

End Keeps.

(** ** The timer tick *)

Lemma same_but_flags_refl rtsp l c : same_but_flags rtsp l c c.
Proof. split; [done|by left]. Qed.

Lemma same_but_flags_trans rtsp l1 l2 c1 c2 c3 :
  same_but_flags rtsp l1 c1 c2 → same_but_flags rtsp l2 c2 c3 →
  same_but_flags rtsp (l1 ++ l2) c1 c3.
Proof.
  intros [H1 H2] [H3 H4]. split; [congruence|].
  destruct H4 as [H4|[H4 H5]].
  - destruct H2 as [H2|[H2 H6]]; [left; congruence|].
    right. split; [congruence|]. apply elem_of_app. by left.
  - right. split; [done|]. apply elem_of_app. by right.
Qed.

Lemma tick_frame_refl w : tick_frame w [] w.
Proof.
  repeat (split; [done|]). intros rtsp. destruct (clients w !! rtsp); [|done].
  apply same_but_flags_refl.
Qed.

Lemma tick_frame_trans w1 l1 w2 l2 w3 :
  tick_frame w1 l1 w2 → tick_frame w2 l2 w3 → tick_frame w1 (l1 ++ l2) w3.
Proof.
  intros (A1 & A2 & A3 & A4 & A5 & A6 & A7 & A8)
    (B1 & B2 & B3 & B4 & B5 & B6 & B7 & B8).
  repeat (split; [congruence|]). split; [by apply Forall_app|].
  intros rtsp. specialize (A8 rtsp). specialize (B8 rtsp).
  destruct (clients w1 !! rtsp), (clients w2 !! rtsp), (clients w3 !! rtsp);
    try done.
  by eapply same_but_flags_trans.
Qed.

Lemma tick_frame_emit a w : is_signal a → tick_frame w [a] w.
Proof.
  intros Ha. repeat (split; [done|]). split; [by constructor|].
  intros rtsp. destruct (clients w !! rtsp); [|done].
  apply same_but_flags_refl.
Qed.

(** Writing a record that differs by these flags only. *)
Lemma tick_frame_with_client rtsp c c' l w :
  clients w !! rtsp = Some c → same_but_flags rtsp l c c' →
  Forall is_signal l →
  tick_frame w l (with_client rtsp c' w).
Proof.
  intros Hc Hs Hl. repeat (split; [done|]).
  intros x. cbn [clients with_client set_clients].
  destruct (decide (rtsp = x)) as [<-|N].
  - by rewrite lookup_insert_eq, Hc.
  - rewrite lookup_insert_ne by done.
    destruct (clients w !! x); [apply same_but_flags_refl|done].
Qed.

Ltac tick :=
  repeat match goal with
  | |- keeps _ (emit _) =>
      apply keeps_emit; intros ?; by apply tick_frame_emit
  | |- keeps _ get_world => apply (keeps_get_world _ tick_frame_refl)
  | |- keeps _ (deref _) => apply (keeps_deref _ tick_frame_refl)
  | |- keeps _ undefined => apply keeps_undefined
  | |- keeps _ (when _ _) => apply (keeps_when _ tick_frame_refl)
  | |- keeps _ (g_slist_foreach _ _) =>
      apply (keeps_foreach _ tick_frame_refl tick_frame_trans); intros ?
  | |- keeps _ (_ ≫= _) =>
      apply (keeps_bind _ tick_frame_trans); [|intros ?]
  end.

Lemma ev_async_send_undefined rtsp w :
  clients w !! rtsp = None → ev_async_send rtsp w = None.
Proof.
  intros H. unfold ev_async_send.
  by rewrite bind_run, (modify_client_undefined _ _ _ H).
Qed.

Lemma keeps_tick_ev_async_send rtsp : keeps tick_frame (ev_async_send rtsp).
Proof.
  intros w [] w' l H. destruct (clients w !! rtsp) as [c|] eqn:Hc.
  - rewrite (ev_async_send_run _ _ _ Hc) in H. injection H as <- <-.
    apply (tick_frame_with_client _ c); [done| |by repeat constructor].
    split; [done|]. right. split; [done|]. apply list_elem_of_here.
  - by rewrite (ev_async_send_undefined _ _ Hc) in H.
Qed.

Lemma ev_timer_again_run rtsp w c :
  clients w !! rtsp = Some c →
  ev_timer_again rtsp w
  = Some ((), with_client rtsp (rearmed c) w, [Ev_timer_again rtsp]).
Proof.
  intros H. unfold ev_timer_again.
  rewrite bind_run, (modify_client_run _ _ _ _ H). reflexivity.
Qed.

Lemma ev_timer_again_undefined rtsp w :
  clients w !! rtsp = None → ev_timer_again rtsp w = None.
Proof.
  intros H. unfold ev_timer_again.
  by rewrite bind_run, (modify_client_undefined _ _ _ H).
Qed.

Lemma keeps_tick_ev_timer_again rtsp : keeps tick_frame (ev_timer_again rtsp).
Proof.
  intros w [] w' l H. destruct (clients w !! rtsp) as [c|] eqn:Hc.
  - rewrite (ev_timer_again_run _ _ _ Hc) in H. injection H as <- <-.
    apply (tick_frame_with_client _ c); [done| |by repeat constructor].
    split; [done|]. by left.
  - by rewrite (ev_timer_again_undefined _ _ Hc) in H.
Qed.

Lemma keeps_tick_check b s now :
  keeps tick_frame (check_if_any_rtp_session_timedout b s now).
Proof.
  unfold check_if_any_rtp_session_timedout, fnc_log, rtcp_send_sr.
  destruct b; [|destruct (_ && _)]; tick; apply keeps_tick_ev_async_send.
Qed.

Lemma keeps_tick_client_ev_timeout b d now :
  keeps tick_frame (client_ev_timeout b d now).
Proof.
  unfold client_ev_timeout. tick. destruct (session _); tick.
  - apply keeps_tick_check.
  - apply keeps_tick_ev_timer_again.
Qed.

(** X4: a tick of a client's timer that is defined only signals.  Its
    calls are logs, RTCP packets and disconnect requests and, last, the
    re-arming of the timer.  It gives out and releases no record, leaves
    the server record, the child table and the children as they are, and
    changes nothing in a client record but the pending flag of the
    disconnect watcher, which is raised only together with an
    [ev_async_send] for that client and never cleared, and the started
    flag of the timer.  Afterwards the client's timer is started exactly
    when its repeat value is positive. *)
Theorem tick_only_signals b d now w w' acts :
  client_ev_timeout b d now w = Some ((), w', acts) →
  tick_frame w acts w'
  ∧ last acts = Some (Ev_timer_again d)
  ∧ ∃ c', clients w' !! d = Some c'
          ∧ timer_active (ev_timeout c')
            = bool_decide (0 < timer_repeat (ev_timeout c')).
Proof.
  intros H. split; [by apply (keeps_tick_client_ev_timeout b d now w ())|].
  revert H. unfold client_ev_timeout. rewrite bind_run. unfold deref at 1.
  destruct (clients w !! d) as [c|]; [|done].
  destruct (session c) as [s|]; [|done]. rewrite bind_run.
  destruct (g_slist_foreach _ _ w) as [[[[] w1] l1]|]; [|done].
  destruct (clients w1 !! d) as [c1|] eqn:Hc1.
  2:{ by rewrite (ev_timer_again_undefined _ _ Hc1). }
  rewrite (ev_timer_again_run _ _ _ Hc1).
  intros [= <- <-]. split.
  - by rewrite last_snoc.
  - eexists. split; [apply with_client_lookup|]. reflexivity.
Qed.

Lemma tick_only_signals_witness :
  tick_frame (playing_world 0 [live_session 80 0 0])
    (soft_calls (live_session 80 0 0) ++ kick_calls (live_session 80 0 0)
     ++ [Ev_timer_again O])
    (with_client O
       (rearmed (raise_sent (playing_client [live_session 80 0 0])))
       (sample_world 0))
  ∧ last (soft_calls (live_session 80 0 0) ++ kick_calls (live_session 80 0 0)
          ++ [Ev_timer_again O]) = Some (Ev_timer_again O)
  ∧ ∃ c',
      clients (with_client O
                 (rearmed (raise_sent (playing_client [live_session 80 0 0])))
                 (sample_world 0)) !! O = Some c'
      ∧ timer_active (ev_timeout c')
        = bool_decide (0 < timer_repeat (ev_timeout c')).
Proof.
  apply (tick_only_signals Cooperative O 100
           (playing_world 0 [live_session 80 0 0])).
  vm_compute. reflexivity.
Defined.

(** What a tick does on one session whose client is alive. *)
Lemma check_run b (s : RTP_session) now w c :
  clients w !! rtp_client s = Some c →
  ∃ l, check_if_any_rtp_session_timedout b s now w
       = Some ((),
               if decide (evicts b w s now)
               then with_client (rtp_client s) (raise_sent c) w else w, l)
       ∧ (evicts b w s now → Ev_async_send (rtp_client s) ∈ l).
Proof.
  intros H. destruct b.
  - rewrite (check_cooperative_run _ _ _ _ H). eexists. split; [reflexivity|].
    cbn [evicts]. intros He. rewrite (decide_True (P := stream_timed_out s now)) by done.
    apply elem_of_app. right. unfold kick_calls.
    apply list_elem_of_further, list_elem_of_here.
  - rewrite (check_trisos_run _ _ _ _ H). eexists. split; [reflexivity|].
    cbn [evicts]. intros He. apply elem_of_app. right.
    destruct (decide (hard_expired TRISOS s now)) as [Hh|Hh].
    + apply list_elem_of_further, list_elem_of_here.
    + destruct He as [He|He]; [done|].
      rewrite decide_True by done. unfold lost_calls.
      do 2 apply list_elem_of_further. apply list_elem_of_here.
Qed.

Lemma evicts_with_client b x c w s now :
  evicts b (with_client x c w) s now ↔ evicts b w s now.
Proof. by destruct b. Qed.

(** A tick over the sessions of one live client: the request is pending
    afterwards as soon as a session asks for it. *)
Lemma foreach_check_run b now d ss : ∀ w c,
  clients w !! d = Some c →
  Forall (λ s, rtp_client s = d) ss →
  ∃ w' l,
    g_slist_foreach ss (λ e, check_if_any_rtp_session_timedout b e now) w
    = Some ((), w', l)
    ∧ (w' = w ∨ w' = with_client d (raise_sent c) w)
    ∧ (Exists (λ s, evicts b w s now) ss
       → w' = with_client d (raise_sent c) w ∧ Ev_async_send d ∈ l).
Proof.
  induction ss as [|s ss IH]; intros w c Hc Hall.
  - eexists _, _. split; [reflexivity|]. split; [by left|].
    intros H. by apply Exists_nil in H.
  - apply Forall_cons_1 in Hall as [<- Hall]. cbn [g_slist_foreach].
    destruct (check_run b s now w c Hc) as (l1 & Hrun & Hl1).
    destruct (decide (evicts b w s now)) as [He|He].
    + destruct (IH (with_client (rtp_client s) (raise_sent c) w) (raise_sent c))
        as (w2 & l2 & Hrun2 & Hw2 & _); [apply with_client_lookup|done|].
      eexists _, _. split; [exact (bind_Some _ _ _ _ _ _ _ _ _ Hrun Hrun2)|].
      assert (E : w2 = with_client (rtp_client s) (raise_sent c) w).
      { destruct Hw2 as [->| ->]; [done|]. by rewrite with_client_twice. }
      split; [by right|]. intros _. split; [done|].
      apply elem_of_app. left. by apply Hl1.
    + destruct (IH w c Hc Hall) as (w2 & l2 & Hrun2 & Hw2 & Hex).
      eexists _, _. split; [exact (bind_Some _ _ _ _ _ _ _ _ _ Hrun Hrun2)|].
      split; [done|]. intros [H|H]%Exists_cons; [done|].
      destruct (Hex H) as [-> Hin]. split; [done|].
      apply elem_of_app. by right.
Qed.

(** X5: right after its set-up a client has no session, so a tick of its
    timer is undefined (it reads [rtsp->session->rtp_sessions] through the
    NULL session); the loop does not make that call, because the set-up has
    not started the timer. *)
Theorem tick_before_session_undefined count_t MAX b s now w :
  ∃ w1 acts,
    setup_client count_t s w = Some ((), w1, acts)
    ∧ client_ev_timeout b (next_client w) now w1 = None
    ∧ loop_step count_t MAX b (E_timeout (next_client w) now) w1
      = Some ((), w1, []).
Proof.
  eexists _, _. split; [apply setup_client_run|]. split.
  - unfold client_ev_timeout. rewrite bind_run.
    rewrite (deref_run _ _ (new_client (next_client w) s))
      by apply lookup_insert_eq.
    reflexivity.
  - unfold loop_step. destruct (exit_status _); [done|]. cbn [serve].
    unfold set_up. world_fields. by rewrite lookup_insert_eq.
Qed.

(** X6: a stalled client is torn down.  When a live client with a wired
    disconnect watcher has a session that makes the tick request a
    disconnect (all of its sessions pointing back to it), the tick is
    defined and calls [ev_async_send] for the client, and the next time the
    loop looks at the disconnect watcher the teardown runs: the calls are
    the ones of the teardown on the client's socket, session and output
    queue, the record is gone and the counter has been decremented once. *)
Theorem stalled_client_is_torn_down count_t MAX b d now w c ss :
  exit_status w = None →
  clients w !! d = Some c →
  wired d c →
  session c = Some ss →
  Forall (λ s, rtp_client s = d) (rtp_sessions ss) →
  Exists (λ s, evicts b w s now) (rtp_sessions ss) →
  ∃ w1 l1 w2 c',
    client_ev_timeout b d now w = Some ((), w1, l1)
    ∧ Ev_async_send d ∈ l1
    ∧ loop_step count_t MAX b (E_async d) w1
      = Some ((), w2, teardown_calls b d c')
    ∧ sock c' = sock c ∧ session c' = session c
    ∧ out_queue c' = out_queue c
    ∧ clients w2 = delete d (clients w)
    ∧ connection_count (srv w2) = decr count_t (connection_count (srv w)).
Proof.
  intros Hex Hc (Hcb & Hd & Ha) Hs Hall Hev.
  destruct (foreach_check_run b now d (rtp_sessions ss) w c Hc Hall)
    as (w1 & l1 & Hrun & _ & Hw1).
  destruct (Hw1 Hev) as [-> Hin].
  set (c1 := rearmed (raise_sent c)).
  assert (Htick : client_ev_timeout b d now w
    = Some ((), with_client d c1 w, l1 ++ [Ev_timer_again d])).
  { unfold client_ev_timeout. rewrite bind_run, (deref_run _ _ _ Hc), Hs.
    cbn [app]. rewrite bind_run, Hrun.
    rewrite (ev_timer_again_run _ _ (raise_sent c)) by apply with_client_lookup.
    by rewrite with_client_twice. }
  destruct (clear_sent_run d (with_client d c1 w) c1)
    as (c' & Hclear & E1 & E2 & E3); [apply with_client_lookup|].
  eexists _, _, _, c'. split; [exact Htick|].
  split; [apply elem_of_app; by left|]. split.
  { unfold loop_step. cbn [exit_status with_client set_clients]. rewrite Hex.
    cbn [serve]. rewrite with_client_lookup.
    replace (async_cb (ev_sig_disconnect c1)) with (async_cb (ev_sig_disconnect c)) by done.
    replace (async_data (ev_sig_disconnect c1)) with (async_data (ev_sig_disconnect c)) by done.
    replace (async_active (ev_sig_disconnect c1)) with (async_active (ev_sig_disconnect c)) by done.
    rewrite Hcb, Hd, Ha. cbn [andb async_sent ev_sig_disconnect c1 rearmed raise_sent set_ev_timeout set_ev_sig_disconnect].
    rewrite bind_run, Hclear.
    rewrite (client_ev_disconnect_handler_run _ _ _ _ c')
      by apply with_client_lookup.
    reflexivity. }
  split; [by rewrite E1|]. split; [by rewrite E2|]. split; [by rewrite E3|].
  split.
  - destruct b; world_fields; by rewrite !delete_insert_eq.
  - by destruct b.
Qed.

Lemma stalled_client_is_torn_down_witness :
  ∃ w1 l1 w2 c',
    client_ev_timeout Cooperative O 100 (playing_world 0 [live_session 80 0 0])
    = Some ((), w1, l1)
    ∧ Ev_async_send O ∈ l1
    ∧ loop_step size_t_64 4 Cooperative (E_async O) w1
      = Some ((), w2, teardown_calls Cooperative O c')
    ∧ sock c' = sample_sock
    ∧ session c' = Some {| rtp_sessions := [live_session 80 0 0] |}
    ∧ out_queue c' = []
    ∧ clients w2 = delete O (clients (playing_world 0 [live_session 80 0 0]))
    ∧ connection_count (srv w2) = decr size_t_64 1.
Proof.
  apply (stalled_client_is_torn_down size_t_64 4 Cooperative O 100
           (playing_world 0 [live_session 80 0 0])
           (playing_client [live_session 80 0 0])
           {| rtp_sessions := [live_session 80 0 0] |}).
  - reflexivity.
  - reflexivity.
  - by repeat split.
  - reflexivity.
  - by repeat constructor.
  - apply Exists_cons_hd. vm_compute. discriminate.
Defined.

(** ** The admission, case by case *)

Section Incoming.

Variable count_t : Z → Z.
Variable ONE_FORK_MAX_CONNECTION : Z.

Lemma incoming_run b accepted port fork_ret w :
  rtsp_client_incoming_cb count_t ONE_FORK_MAX_CONNECTION b accepted port
    fork_ret w
  = Some ((),
          (incoming_outcome count_t ONE_FORK_MAX_CONNECTION b accepted port
             fork_ret w).1,
          (incoming_outcome count_t ONE_FORK_MAX_CONNECTION b accepted port
             fork_ret w).2).
Proof.
  unfold rtsp_client_incoming_cb, incoming_outcome.
  rewrite bind_run. unfold emit at 1.
  destruct accepted as [s|]; [|reflexivity].
  rewrite bind_run. unfold get_world at 1.
  destruct (bool_decide _); [reflexivity|].
  destruct b; [by rewrite setup_client_run|].
  rewrite bind_run. unfold new_child_port at 1. rewrite bind_run.
  unfold emit at 1. unfold mret at 1, M_ret at 1.
  destruct port as [p|]; [|reflexivity].
  rewrite bind_run. unfold fork at 1.
  destruct fork_ret as [|pid|pid]; [|reflexivity|reflexivity].
  rewrite bool_decide_eq_true_2 by done.
  rewrite bind_run. unfold free_child_port at 1, emit at 1.
  rewrite bind_run. unfold loop_timer_uninit at 1. rewrite bind_run.
  unfold modify_loop_timer at 1, modify_world at 1, emit at 1.
  rewrite bind_run.
  unfold feng_ports_cleanup at 1, emit at 1.
  rewrite setup_client_run. reflexivity.
Qed.

Lemma occurrences_setup_calls a x :
  a ≠ G_slice_new0 x → a ≠ Ev_io_start x EV_READ → a ≠ Ev_async_start x →
  occurrences a (setup_calls x)
  = ((if decide (Connection_count_inc = a) then 1 else 0)
     + ((if decide (Fnc_log FNC_LOG_INFO
                      "Incoming RTSP connection accepted on socket: %d\n" = a)
         then 1 else 0)
        + (if decide (Fnc_log FNC_LOG_INFO "Connection reached: %d\n" = a)
           then 1 else 0)))%nat.
Proof.
  intros H1 H2 H3. unfold setup_calls. rewrite !occurrences_cons.
  rewrite (decide_False (P := G_slice_new0 x = a)) by congruence.
  rewrite (decide_False (P := Ev_io_start x EV_READ = a)) by congruence.
  rewrite (decide_False (P := Ev_async_start x = a)) by congruence.
  change (occurrences a []) with O. lia.
Qed.

Ltac counted :=
  cbn [fst snd]; split; [reflexivity|];
  split;
    [rewrite ?occurrences_app, ?occurrences_cons, ?occurrences_setup_calls
       by discriminate; reflexivity|];
  split; [|reflexivity];
  match goal with H : ∀ l : list action, _ |- _ =>
    apply H; unfold setup_calls; repeat constructor; discriminate
  end.

(** X7: the admission callback is defined whatever the environment
    answers.  It increments the counter exactly once when the connection is
    counted (accepted below the ceiling and, in the TRISOS build, with a
    port pair reserved and [fork] not failing) and not at all otherwise; it
    never decrements it and leaves the heartbeat setting alone. *)
Theorem incoming_counts_admissions b accepted port fork_ret w :
  ∃ w' acts,
    rtsp_client_incoming_cb count_t ONE_FORK_MAX_CONNECTION b accepted port
      fork_ret w = Some ((), w', acts)
    ∧ connection_count (srv w')
      = (if decide (admits ONE_FORK_MAX_CONNECTION b accepted port fork_ret w)
         then incr count_t (connection_count (srv w))
         else connection_count (srv w))
    ∧ occurrences Connection_count_inc acts
      = (if decide (admits ONE_FORK_MAX_CONNECTION b accepted port fork_ret w)
         then 1%nat else O)
    ∧ (Connection_count_dec ∉ acts)
    ∧ rtcp_heartbeat (srv w') = rtcp_heartbeat (srv w).
Proof.
  eexists _, _. split; [apply incoming_run|].
  unfold incoming_outcome, admits.
  assert (Hno : ∀ l : list action,
    Forall (λ a, a ≠ Connection_count_dec) l → Connection_count_dec ∉ l).
  { intros l Hl Hin. rewrite Forall_forall in Hl. by eapply Hl. }
  destruct accepted as [s|].
  2:{ rewrite !decide_False by (intros [[? [=]] _]). counted. }
  destruct (bool_decide (ONE_FORK_MAX_CONNECTION ≤ connection_count (srv w)))
    eqn:Hmax.
  { apply bool_decide_eq_true_1 in Hmax.
    rewrite !decide_False by (intros (_ & ? & _); lia). counted. }
  apply bool_decide_eq_false_1 in Hmax.
  destruct b.
  { rewrite !decide_True by (split; [done|]; split; [lia|done]). counted. }
  destruct port as [p|].
  2:{ rewrite !decide_False
        by (intros (_ & _ & H); by destruct (H eq_refl) as [[? [=]] _]).
      counted. }
  destruct fork_ret as [|pid|pid].
  - rewrite !decide_True by (split; [done|]; split; [lia|done]). counted.
  - rewrite !decide_True
      by (split; [done|]; split; [lia|]; intros _; split; [done|lia]).
    counted.
  - rewrite !decide_False by (intros (_ & _ & H); destruct (H eq_refl); lia).
    counted.
Qed.

Ltac absent :=
  let H := fresh in
  intros H%list_elem_of_In; simpl in H; intuition discriminate.

Ltac count :=
  unfold setup_calls;
  rewrite ?occurrences_app, ?occurrences_cons;
  repeat first [rewrite decide_True by done
               |rewrite decide_False by discriminate];
  reflexivity.

(** X8: an accepted socket is either owned or closed, never both and never
    neither.  When this process serves the connection, the socket is not
    closed and exactly one new client record, at the next free address,
    holds it; otherwise [Sock_close] is called on it exactly once, no
    record is allocated and the clients are as before. *)
Theorem accepted_socket_closed_or_owned b s port fork_ret w :
  ∃ w' acts,
    rtsp_client_incoming_cb count_t ONE_FORK_MAX_CONNECTION b (Some s) port
      fork_ret w = Some ((), w', acts)
    ∧ if decide (serves_here ONE_FORK_MAX_CONNECTION b port fork_ret w)
      then (Close_Sock s ∉ acts)
           ∧ clients w'
             = <[next_client w := new_client (next_client w) s]> (clients w)
           ∧ next_client w' = S (next_client w)
           ∧ occurrences (G_slice_new0 (next_client w)) acts = 1%nat
      else occurrences (Close_Sock s) acts = 1%nat
           ∧ clients w' = clients w
           ∧ next_client w' = next_client w
           ∧ ∀ x, G_slice_new0 x ∉ acts.
Proof.
  eexists _, _. split; [apply incoming_run|].
  unfold incoming_outcome, serves_here.
  destruct (bool_decide (ONE_FORK_MAX_CONNECTION ≤ connection_count (srv w)))
    eqn:Hmax.
  { apply bool_decide_eq_true_1 in Hmax.
    rewrite decide_False by (intros (? & _); lia). cbn [fst snd].
    split; [count|]. split; [done|]. split; [done|]. intros x. absent. }
  apply bool_decide_eq_false_1 in Hmax.
  destruct b.
  { rewrite decide_True by (split; [lia|done]). cbn [fst snd].
    split; [absent|]. split; [done|]. split; [done|]. count. }
  destruct port as [p|].
  2:{ rewrite decide_False
        by (intros (_ & H); by destruct (H eq_refl) as [[? [=]] _]).
      cbn [fst snd].
      split; [count|]. split; [done|]. split; [done|]. intros x. absent. }
  destruct fork_ret as [|pid|pid].
  - rewrite decide_True by (split; [lia|done]). cbn [fst snd].
    split; [absent|]. split; [done|]. split; [done|]. count.
  - rewrite decide_False by (intros (_ & H); by destruct (H eq_refl)).
    cbn [fst snd].
    split; [count|]. split; [done|]. split; [done|]. intros x. absent.
  - rewrite decide_False by (intros (_ & H); by destruct (H eq_refl)).
    cbn [fst snd].
    split; [count|]. split; [done|]. split; [done|]. intros x. absent.
Qed.

(** X9: in the TRISOS build a reserved port pair is either tracked or
    released.  When [fork] returns a child pid, the parent enters the pair
    in the child table under that pid, once, and does not release it; when
    [fork] returns 0 (the child) or fails, the pair is released exactly once
    and the table is as before. *)
Theorem port_pair_released_or_tracked s p fork_ret w :
  connection_count (srv w) < ONE_FORK_MAX_CONNECTION →
  ∃ w' acts,
    rtsp_client_incoming_cb count_t ONE_FORK_MAX_CONNECTION TRISOS (Some s)
      (Some p) fork_ret w = Some ((), w', acts)
    ∧ if decide (0 < fork_ret)
      then (Free_child_port p ∉ acts)
           ∧ occurrences (Add_client_list (set_cpp_pid fork_ret p)) acts
             = 1%nat
           ∧ client_list w' = client_list w ++ [set_cpp_pid fork_ret p]
           ∧ running w' = running w ++ [Z.to_pos fork_ret]
      else occurrences (Free_child_port p) acts = 1%nat
           ∧ (∀ c, Add_client_list c ∉ acts)
           ∧ client_list w' = client_list w
           ∧ running w' = if decide (fork_ret = 0) then [] else running w.
Proof.
  intros Hlt. eexists _, _. split; [apply incoming_run|].
  unfold incoming_outcome. rewrite bool_decide_eq_false_2 by lia.
  destruct fork_ret as [|pid|pid].
  - rewrite decide_False by lia. cbn [fst snd].
    split; [count|]. split; [intros c; absent|]. split; done.
  - rewrite decide_True by lia. cbn [fst snd].
    split; [absent|]. split; [count|]. split; done.
  - rewrite decide_False by lia. cbn [fst snd].
    split; [count|]. split; [intros c; absent|]. split; done.
Qed.

(** X10: a connection that is not counted leaves no trace: the state is
    the one before, the accepted socket (if any) is closed exactly once, a
    port pair that was reserved is released exactly once, no client record
    is allocated, the counter is not incremented and no child is entered
    in the table. *)
Theorem refused_connection_leaves_no_trace b accepted port fork_ret w :
  ¬ admits ONE_FORK_MAX_CONNECTION b accepted port fork_ret w →
  ∃ acts,
    rtsp_client_incoming_cb count_t ONE_FORK_MAX_CONNECTION b accepted port
      fork_ret w = Some ((), w, acts)
    ∧ (∀ s, accepted = Some s → occurrences (Close_Sock s) acts = 1%nat)
    ∧ (∀ p, New_child_port (Some p) ∈ acts
            → occurrences (Free_child_port p) acts = 1%nat)
    ∧ (∀ x, G_slice_new0 x ∉ acts)
    ∧ (Connection_count_inc ∉ acts)
    ∧ (∀ c, Add_client_list c ∉ acts).
Proof.
  intros Hn. rewrite incoming_run. unfold incoming_outcome, admits in *.
  destruct accepted as [s|].
  2:{ eexists. split; [reflexivity|]. cbn [snd].
      split; [intros s [=]|]. split; [intros p; absent|].
      split; [intros x; absent|]. split; [absent|intros c; absent]. }
  destruct (bool_decide (ONE_FORK_MAX_CONNECTION ≤ connection_count (srv w)))
    eqn:Hmax.
  { eexists. split; [reflexivity|]. cbn [snd].
    split; [intros ? [= <-]; count|]. split; [intros p; absent|].
    split; [intros x; absent|]. split; [absent|intros c; absent]. }
  apply bool_decide_eq_false_1 in Hmax.
  destruct b.
  { destruct Hn. split; [done|]. split; [lia|done]. }
  destruct port as [p|].
  2:{ eexists. split; [reflexivity|]. cbn [snd].
      split; [intros ? [= <-]; count|]. split; [intros p; absent|].
      split; [intros x; absent|]. split; [absent|intros c; absent]. }
  destruct fork_ret as [|pid|pid].
  - destruct Hn. split; [done|]. split; [lia|done].
  - destruct Hn. split; [done|]. split; [lia|]. intros _. split; [done|lia].
  - eexists. split; [reflexivity|]. cbn [snd].
    split; [intros ? [= <-]; count|]. split.
    { intros q Hq. assert (q = p) as ->.
      { apply list_elem_of_In in Hq. simpl in Hq.
        destruct Hq as [Hq|[Hq|Hq]]; try discriminate; [by injection Hq|].
        intuition discriminate. }
      count. }
    split; [intros x; absent|]. split; [absent|intros c; absent].
Qed.

(** X11: the TRISOS child does not reap.  After the admission in the child
    ([fork] returns 0) the worker's timer has been stopped, the child has
    no children of its own, it still holds the table it inherited, and an
    expiry of the worker's timer is not served. *)
Theorem child_stops_reaping s p w :
  connection_count (srv w) < ONE_FORK_MAX_CONNECTION →
  ∃ w' acts,
    rtsp_client_incoming_cb count_t ONE_FORK_MAX_CONNECTION TRISOS (Some s)
      (Some p) 0 w = Some ((), w', acts)
    ∧ Ev_loop_timer_stop ∈ acts
    ∧ timer_active (loop_timer (srv w')) = false
    ∧ running w' = [] ∧ zombies w' = []
    ∧ client_list w' = client_list w
    ∧ loop_step count_t ONE_FORK_MAX_CONNECTION TRISOS E_reap w'
      = Some ((), w', []).
Proof.
  intros Hlt. eexists _, _. split; [apply incoming_run|].
  unfold incoming_outcome. rewrite bool_decide_eq_false_2 by lia.
  cbn [fst snd].
  split; [apply list_elem_of_In; simpl; tauto|].
  split; [done|]. split; [done|]. split; [done|]. split; [done|].
  unfold loop_step. destruct (exit_status _); [done|]. cbn [serve].
  unfold set_up, child_world. world_fields.
  cbn [timer_cb timer_active set_timer_active].
  by destruct (timer_cb (loop_timer (srv w))) as [[]|].
Qed.

End Incoming.

Lemma port_pair_released_or_tracked_witness :
  ∃ w' acts,
    rtsp_client_incoming_cb size_t_64 4 TRISOS (Some sample_sock)
      (Some {| cpp_pid := 0; cpp_port := 100 |}) 42 (initial_world TRISOS 0)
    = Some ((), w', acts)
    ∧ if decide (0 < 42)
      then (Free_child_port {| cpp_pid := 0; cpp_port := 100 |} ∉ acts)
           ∧ occurrences
               (Add_client_list
                  (set_cpp_pid 42 {| cpp_pid := 0; cpp_port := 100 |})) acts
             = 1%nat
           ∧ client_list w'
             = client_list (initial_world TRISOS 0)
               ++ [set_cpp_pid 42 {| cpp_pid := 0; cpp_port := 100 |}]
           ∧ running w'
             = running (initial_world TRISOS 0) ++ [Z.to_pos 42]
      else occurrences (Free_child_port {| cpp_pid := 0; cpp_port := 100 |})
             acts = 1%nat
           ∧ (∀ c, Add_client_list c ∉ acts)
           ∧ client_list w' = client_list (initial_world TRISOS 0)
           ∧ running w'
             = if decide (42 = 0) then []
               else running (initial_world TRISOS 0).
Proof.
  apply (port_pair_released_or_tracked size_t_64 4 sample_sock
           {| cpp_pid := 0; cpp_port := 100 |} 42 (initial_world TRISOS 0)).
  simpl. lia.
Defined.

Lemma refused_connection_leaves_no_trace_witness :
  ∃ acts,
    rtsp_client_incoming_cb size_t_64 4 TRISOS (Some sample_sock)
      (Some {| cpp_pid := 0; cpp_port := 100 |}) (-1) (initial_world TRISOS 0)
    = Some ((), initial_world TRISOS 0, acts)
    ∧ (∀ s, Some sample_sock = Some s → occurrences (Close_Sock s) acts = 1%nat)
    ∧ (∀ p, New_child_port (Some p) ∈ acts
            → occurrences (Free_child_port p) acts = 1%nat)
    ∧ (∀ x, G_slice_new0 x ∉ acts)
    ∧ (Connection_count_inc ∉ acts)
    ∧ (∀ c, Add_client_list c ∉ acts).
Proof.
  apply (refused_connection_leaves_no_trace size_t_64 4 TRISOS
           (Some sample_sock) (Some {| cpp_pid := 0; cpp_port := 100 |}) (-1)
           (initial_world TRISOS 0)).
  intros (_ & _ & H). destruct (H eq_refl) as [_ H0]. lia.
Defined.

Lemma child_stops_reaping_witness :
  ∃ w' acts,
    rtsp_client_incoming_cb size_t_64 4 TRISOS (Some sample_sock)
      (Some {| cpp_pid := 0; cpp_port := 100 |}) 0 (initial_world TRISOS 0)
    = Some ((), w', acts)
    ∧ Ev_loop_timer_stop ∈ acts
    ∧ timer_active (loop_timer (srv w')) = false
    ∧ running w' = [] ∧ zombies w' = []
    ∧ client_list w' = client_list (initial_world TRISOS 0)
    ∧ loop_step size_t_64 4 TRISOS E_reap w' = Some ((), w', []).
Proof.
  apply (child_stops_reaping size_t_64 4 sample_sock
           {| cpp_pid := 0; cpp_port := 100 |} (initial_world TRISOS 0)).
  simpl. lia.
Defined.

(** ** The reaper on any table *)

Lemma find_untracked (l : list client_port_pair) pid :
  pid ∉ cpp_pid <$> l →
  List.find (λ c, bool_decide (cpp_pid c = pid)) l = None.
Proof.
  induction l as [|x l IH]; [done|].
  rewrite fmap_cons. intros [Hx Hl]%not_elem_of_cons. simpl.
  rewrite bool_decide_eq_false_2 by done. by apply IH.
Qed.

Lemma find_elem_of (l : list client_port_pair) pid c :
  List.find (λ c, bool_decide (cpp_pid c = pid)) l = Some c →
  c ∈ l ∧ cpp_pid c = pid.
Proof.
  intros [Hin Hp]%find_some. split; [by apply list_elem_of_In|].
  by apply bool_decide_eq_true_1 in Hp.
Qed.

Section ReaperTotal.
Variable count_t : Z → Z.

(** One turn of the loop on a terminated child that is not tracked. *)
Lemma reap_children_skip fuel w p zs w' l :
  zombies w = p :: zs →
  List.find (λ c, bool_decide (cpp_pid c = Zpos p)) (client_list w) = None →
  reap_children count_t fuel (set_children (running w) zs w)
  = Some ((), w', l) →
  reap_children count_t (S fuel) w = Some ((), w', Waitpid (Zpos p) :: l).
Proof.
  intros Hz Hf Hrec. cbn [reap_children].
  etrans.
  { eapply bind_Some.
    { unfold waitpid_any_nohang. rewrite Hz. reflexivity. }
    rewrite bool_decide_eq_true_2 by lia.
    eapply bind_Some.
    { unfold get_client_list_item, get_world. rewrite bind_run.
      unfold mret, M_ret. cbn [client_list set_children]. rewrite Hf.
      reflexivity. }
    cbv beta iota.
    eapply bind_Some; [reflexivity|]. exact Hrec. }
  reflexivity.
Qed.

Lemma reap_children_total zs : ∀ fuel w,
  zombies w = zs →
  (length zs < fuel)%nat →
  ∃ w' acts,
    reap_children count_t fuel w = Some ((), w', acts)
    ∧ zombies w' = []
    ∧ running w' = running w
    ∧ clients w' = clients w
    ∧ next_client w' = next_client w
    ∧ exit_status w' = exit_status w
    ∧ rtcp_heartbeat (srv w') = rtcp_heartbeat (srv w)
    ∧ loop_timer (srv w') = loop_timer (srv w)
    ∧ removed_records acts = released_records acts
    ∧ occurrences Connection_count_dec acts = length (removed_records acts)
    ∧ connection_count (srv w')
      = Nat.iter (length (removed_records acts)) (decr count_t)
          (connection_count (srv w))
    ∧ (length (client_list w') + length (removed_records acts))%nat
      = length (client_list w)
    ∧ Forall (λ c, cpp_pid c ∈ Zpos <$> zs) (removed_records acts)
    ∧ Forall reaper_call acts.
Proof.
  induction zs as [|p zs IH]; intros fuel w Hz Hfuel.
  - destruct fuel as [|fuel]; [simpl in Hfuel; lia|].
    rewrite (reap_children_done _ _ _ Hz).
    eexists _, _. split; [reflexivity|].
    repeat (split; [done|]). by repeat constructor.
  - destruct fuel as [|fuel]; [simpl in Hfuel; lia|].
    destruct (List.find (λ c, bool_decide (cpp_pid c = Zpos p)) (client_list w))
      as [c|] eqn:Hf.
    + destruct (find_elem_of _ _ _ Hf) as [Hin Hp].
      edestruct (IH fuel) as (w' & acts & Hrun & H1 & H2 & H3 & H4 & H5 & H6
                              & H7 & H8 & H9 & H10 & H11 & H12 & H13); cycle -1.
      * eexists _, _.
        split; [exact (reap_children_step _ _ _ _ _ _ _ _ Hz Hf Hrun)|].
        change (removed_records (?x ++ acts)) with (c :: removed_records acts).
        change (released_records (?x ++ acts)) with (c :: released_records acts).
        rewrite H1, H2, H3, H4, H5, H6, H7, H10.
        cbn [zombies running clients next_client exit_status srv client_list
             set_srv set_client_list set_children rtcp_heartbeat loop_timer
             connection_count set_connection_count] in *.
        repeat (split; [done|]).
        split; [by rewrite H8|].
        split; [rewrite occurrences_app, H9; reflexivity|].
        split; [cbn [length]; by rewrite Nat.iter_succ_r|].
        split.
        { rewrite (length_remove_record _ _ Hin) in H11.
          cbn [length]. destruct (client_list w); [by apply elem_of_nil in Hin|].
          simpl in *. lia. }
        split.
        { constructor; [rewrite Hp; apply list_elem_of_here|].
          eapply Forall_impl; [exact H12|]. intros x Hx.
          by apply list_elem_of_further. }
        apply Forall_app. split; [by repeat constructor|done].
      * done.
      * simpl in *. lia.
    + edestruct (IH fuel) as (w' & acts & Hrun & H1 & H2 & H3 & H4 & H5 & H6
                              & H7 & H8 & H9 & H10 & H11 & H12 & H13); cycle -1.
      * eexists _, _.
        split; [exact (reap_children_skip _ _ _ _ _ _ Hz Hf Hrun)|].
        change (removed_records (?x :: acts)) with (removed_records acts).
        change (released_records (?x :: acts)) with (released_records acts).
        rewrite H1, H2, H3, H4, H5, H6, H7, H10.
        cbn [zombies running clients next_client exit_status srv client_list
             set_srv set_client_list set_children rtcp_heartbeat loop_timer
             connection_count set_connection_count] in *.
        repeat (split; [done|]).
        split.
        { eapply Forall_impl; [exact H12|]. intros x Hx.
          by apply list_elem_of_further. }
        by constructor.
      * done.
      * simpl in *. lia.
Qed.

(** X12: the reaper is defined on every state, whatever the terminated
    children and the table are.  It makes the calls of its loop and then
    re-arms the worker's timer; no terminated child is left, the running
    children and the clients are untouched; every record it takes out of
    the table is released, belongs to a terminated child and is paired
    with one decrement of the counter, and the table has lost exactly that
    many records. *)
Theorem reaper_always_terminates w :
  ∃ w' acts,
    timer_watcher_cb count_t w
    = Some ((), w', acts ++ [Ev_loop_timer_again])
    ∧ Forall reaper_call acts
    ∧ zombies w' = []
    ∧ running w' = running w
    ∧ clients w' = clients w
    ∧ exit_status w' = exit_status w
    ∧ removed_records acts = released_records acts
    ∧ Forall (λ c, cpp_pid c ∈ Zpos <$> zombies w) (removed_records acts)
    ∧ occurrences Connection_count_dec acts = length (removed_records acts)
    ∧ connection_count (srv w')
      = Nat.iter (length (removed_records acts)) (decr count_t)
          (connection_count (srv w))
    ∧ (length (client_list w') + length (removed_records acts))%nat
      = length (client_list w)
    ∧ loop_timer (srv w') = ev_timer_again_on (loop_timer (srv w)).
Proof.
  destruct (reap_children_total (zombies w) (S (length (zombies w))) w)
    as (w' & acts & Hrun & H1 & H2 & H3 & H4 & H5 & H6 & H7 & H8 & H9 & H10
        & H11 & H12 & H13); [done|lia|].
  eexists _, acts. split.
  { unfold timer_watcher_cb. rewrite bind_run. unfold get_world at 1.
    rewrite bind_run, Hrun. reflexivity. }
  cbn [zombies running clients exit_status client_list srv connection_count
       set_srv set_loop_timer set_connection_count loop_timer app].
  rewrite H7. by repeat (split; [done|]).
Qed.

Lemma reap_children_untracked zs : ∀ fuel w,
  zombies w = zs →
  (length zs < fuel)%nat →
  (∀ p, p ∈ zs → ¬ tracked w p) →
  reap_children count_t fuel w
  = Some ((), set_children (running w) [] w,
          ((λ p, Waitpid (Zpos p)) <$> zs)
          ++ [Waitpid (match running w with [] => -1 | _ :: _ => 0 end)]).
Proof.
  induction zs as [|p zs IH]; intros fuel w Hz Hfuel Hun.
  - destruct fuel as [|fuel]; [simpl in Hfuel; lia|].
    rewrite (reap_children_done _ _ _ Hz). apply result_eq; [|done].
    apply world_eq; by cbn [srv clients next_client client_list running
                            zombies exit_status set_children].
  - destruct fuel as [|fuel]; [simpl in Hfuel; lia|].
    apply (reap_children_skip _ _ _ zs); [done| |].
    + apply find_untracked, Hun, list_elem_of_here.
    + rewrite (IH fuel); [done|done|simpl in *; lia|].
      intros q Hq. apply Hun. by apply list_elem_of_further.
Qed.

(** X13: terminated children that are not in the table are only waited
    for: the reaper calls [waitpid] once for each and once more, re-arms
    the timer, and leaves the table and the counter as they are. *)
Theorem untracked_children_are_only_waited_for w :
  (∀ p, p ∈ zombies w → ¬ tracked w p) →
  timer_watcher_cb count_t w
  = Some ((),
          set_srv (set_loop_timer (ev_timer_again_on (loop_timer (srv w)))
                     (srv w))
            (set_children (running w) [] w),
          ((λ p, Waitpid (Zpos p)) <$> zombies w)
          ++ [Waitpid (match running w with [] => -1 | _ :: _ => 0 end);
              Ev_loop_timer_again]).
Proof.
  intros Hun. unfold timer_watcher_cb.
  etrans.
  { eapply bind_Some; [reflexivity|]. cbv beta.
    eapply bind_Some;
      [exact (reap_children_untracked (zombies w) _ w eq_refl
                (Nat.lt_succ_diag_r _) Hun)|].
    reflexivity. }
  apply result_eq; [done|]. by rewrite <- app_assoc.
Qed.

End ReaperTotal.

Lemma untracked_children_are_only_waited_for_witness :
  timer_watcher_cb size_t_64 stray_world
  = Some ((),
          set_srv (set_loop_timer
                     (ev_timer_again_on (loop_timer (srv stray_world)))
                     (srv stray_world))
            (set_children (running stray_world) [] stray_world),
          ((λ p, Waitpid (Zpos p)) <$> zombies stray_world)
          ++ [Waitpid (match running stray_world with
                       | [] => -1 | _ :: _ => 0 end);
              Ev_loop_timer_again]).
Proof.
  apply (untracked_children_are_only_waited_for size_t_64 stray_world).
  intros p Hp Ht. unfold tracked in Ht. simpl in Ht, Hp.
  apply list_elem_of_singleton in Ht.
  apply elem_of_cons in Hp as [->|Hp]; [discriminate|].
  apply list_elem_of_singleton in Hp as ->. discriminate.
Defined.

(** ** After the teardown *)

Section AfterTeardown.

Variable count_t : Z → Z.
Variable ONE_FORK_MAX_CONNECTION : Z.



End AfterTeardown.



(** ** The counter and the connections *)



Section Accounting.

Variable count_t : Z → Z.
Variable ONE_FORK_MAX_CONNECTION : Z.
Variable b : build.

(** The counter's type holds the numbers up to the ceiling. *)
Hypothesis count_t_small :
  ∀ n, 0 ≤ n ≤ ONE_FORK_MAX_CONNECTION → count_t n = n.








End Accounting.


(** ** Requests and teardowns *)

Lemma pending_same_clients w w' x :
  clients w' = clients w → pending w' x → pending w x.
Proof. unfold pending. by intros ->. Qed.

Lemma pending_with_client rtsp c' w x :
  pending (with_client rtsp c' w) x →
  (x = rtsp ∧ async_sent (ev_sig_disconnect c') = true) ∨ pending w x.
Proof.
  intros (c & Hc & Hs). revert Hc. cbn [clients with_client set_clients].
  destruct (decide (rtsp = x)) as [<-|N].
  - rewrite lookup_insert_eq. intros [= <-]. by left.
  - rewrite lookup_insert_ne by done. intros Hc. right. by exists c.
Qed.

Lemma occurrences_present {A} `{EqDecision A} (a : A) (l : list A) :
  a ∈ l → occurrences a l ≠ O.
Proof.
  intros Hin E. unfold occurrences in E. apply length_zero_iff_nil in E.
  assert (a ∈ filter (λ x, x = a) l) as H0 by by apply list_elem_of_filter.
  rewrite E in H0. by apply elem_of_nil in H0.
Qed.

Section Requests.

Variable count_t : Z → Z.
Variable ONE_FORK_MAX_CONNECTION : Z.
Variable b : build.

Lemma pending_set_up s w0 w x :
  clients w0 = clients w → pending (set_up count_t s w0) x → pending w x.
Proof.
  intros E (c & Hc & Hs). revert Hc. unfold set_up. world_fields.
  destruct (decide (next_client w0 = x)) as [<-|N].
  - rewrite lookup_insert_eq. intros [= <-]. done.
  - rewrite lookup_insert_ne, E by done. intros Hc. by exists c.
Qed.

(** One step of the loop: a request is pending afterwards only if it was
    pending or was made in the step, and a record is released only on a
    pending request. *)
Lemma step_requests e w w' l :
  well_formed w →
  loop_step count_t ONE_FORK_MAX_CONNECTION b e w = Some ((), w', l) →
  (∀ x, pending w' x → pending w x ∨ Ev_async_send x ∈ l)
  ∧ (∀ x, G_slice_free x ∈ l → pending w x).
Proof.
  intros Hwf. unfold loop_step.
  assert (Hnil : ∀ x, G_slice_free x ∈ @nil action → pending w x)
    by (intros x H; by apply elem_of_nil in H).
  assert (Hid : (∀ x, pending w x → pending w x ∨ Ev_async_send x ∈ @nil action)
                ∧ (∀ x, G_slice_free x ∈ @nil action → pending w x))
    by (split; [by left|done]).
  destruct (exit_status w); [by intros [= <- <-]|].
  destruct e as [accepted port fork_ret|rtsp inp outq s wr tm|rtsp|rtsp|rtsp now|];
    cbn [serve].
  - intros H. destruct (incoming_spec _ _ _ _ _ _ _ _ _ H) as (_ & _ & Hfree).
    split; [|intros x Hx; by destruct (Hfree x)].
    revert H. rewrite incoming_run. intros [= <- _]. unfold incoming_outcome.
    intros x Hx. left. revert Hx.
    destruct accepted as [s|]; [|done].
    destruct (bool_decide _); [done|].
    destruct b; [by apply pending_set_up|].
    destruct port as [p|]; [|done].
    destruct fork_ret as [|pid|pid]; cbn [fst]; [|by apply pending_same_clients|done].
    by apply pending_set_up.
  - destruct (clients w !! rtsp) as [c|] eqn:Hc; [|by intros [= <- <-]].
    destruct (_ || _); [|by intros [= <- <-]].
    unfold protocol_layer. rewrite (modify_client_run _ _ _ _ Hc).
    intros [= <- <-]. split; [|done].
    intros x [[-> Hs]|Hx]%pending_with_client; left; [|done]. by exists c.
  - destruct (clients w !! rtsp) as [c|] eqn:Hc.
    + rewrite (ev_async_send_run _ _ _ Hc). intros [= <- <-]. split.
      * intros x [[-> Hs]|Hx]%pending_with_client; [right|by left].
        apply list_elem_of_here.
      * intros x H%list_elem_of_singleton. discriminate.
    + by rewrite (ev_async_send_undefined _ _ Hc).
  - destruct (clients w !! rtsp) as [c|] eqn:Hc; [|by intros [= <- <-]].
    destruct (Hwf _ _ Hc) as (Hlt & Hcb & Hd & Ha). rewrite Hcb, Hd, Ha.
    destruct (async_sent (ev_sig_disconnect c)) eqn:Hs; [|by intros [= <- <-]].
    cbn [andb]. rewrite bind_run.
    destruct (clear_sent_run _ _ _ Hc) as (c' & -> & _).
    rewrite (client_ev_disconnect_handler_run _ _ _ _ c')
      by apply with_client_lookup.
    intros [= <- <-]. split.
    + intros x (cx & Hcx & Hsx). left. exists cx. split; [|done].
      revert Hcx. destruct b; world_fields; rewrite delete_insert_eq;
        (destruct (decide (rtsp = x)) as [<-|N];
          [by rewrite lookup_delete_eq|by rewrite lookup_delete_ne]).
    + intros x Hx%occurrences_present.
      rewrite teardown_calls_free in Hx.
      destruct (decide (rtsp = x)) as [<-|N]; [|done]. by exists c.
  - destruct (clients w !! rtsp) as [c|]; [|by intros [= <- <-]].
    destruct (timer_cb (ev_timeout c)) as [[]|], (timer_data (ev_timeout c)),
      (timer_active (ev_timeout c)); try by intros [= <- <-].
    intros H. pose proof (keeps_tick_client_ev_timeout _ _ _ _ _ _ _ H)
      as (_ & _ & _ & _ & _ & _ & Hsig & Hcl).
    split.
    + intros x (cx & Hcx & Hsx). specialize (Hcl x). rewrite Hcx in Hcl.
      destruct (clients w !! x) as [c0|] eqn:Hc0; [|done].
      destruct Hcl as [_ [E|[_ Hin]]]; [left|by right].
      exists c0. split; [done|congruence].
    + intros x Hx. rewrite Forall_forall in Hsig. by destruct (Hsig _ Hx).
  - destruct (timer_cb (loop_timer (srv w))) as [[]|],
      (timer_active (loop_timer (srv w))); try by intros [= <- <-].
    unfold timer_watcher_cb. rewrite bind_run. unfold get_world at 1.
    rewrite bind_run.
    destruct (reap_children_total count_t (zombies w) (S (length (zombies w))) w)
      as (w1 & acts & Hrun & H1 & H2 & H3 & H4 & H5 & H6 & H7 & H8 & H9 & H10
          & H11 & H12 & H13); [done|lia|].
    rewrite Hrun. intros [= <- <-]. split.
    + intros x Hx. left. revert Hx. by apply pending_same_clients.
    + intros x [Hx|Hx%list_elem_of_singleton]%elem_of_app; [|discriminate].
      rewrite Forall_forall in H13. by destruct (H13 _ Hx).
Qed.

Lemma run_requests evs : ∀ w w' h h0,
  well_formed w →
  (∀ x, pending w x → ∃ e, (e, Ev_async_send x) ∈ h0) →
  run count_t ONE_FORK_MAX_CONNECTION b evs w = Some (w', h) →
  ∀ x h1 h2 e, h = h1 ++ (e, G_slice_free x) :: h2 →
    ∃ e', (e', Ev_async_send x) ∈ h0 ++ h1.
Proof.
  induction evs as [|e evs IH]; intros w w' h h0 Hwf Hinv; simpl.
  - intros [= <- <-] x h1 h2 e0 E. by destruct h1.
  - destruct (loop_step _ _ _ e w) as [[[[] w1] l]|] eqn:Hstep; [|done].
    destruct (run _ _ _ evs w1) as [[w2 hr]|] eqn:Hrun; [|done].
    intros [= <- <-] x h1 h2 e0 E.
    destruct (loop_step_spec _ _ _ _ _ _ _ Hwf Hstep) as (Hwf1 & _).
    destruct (step_requests _ _ _ _ Hwf Hstep) as [Hpend Hfree].
    assert (Hinv1 : ∀ y, pending w1 y
              → ∃ e', (e', Ev_async_send y) ∈ h0 ++ map (pair e) l).
    { intros y [Hy|Hy]%Hpend.
      - destruct (Hinv y Hy) as [e' He']. exists e'.
        apply elem_of_app. by left.
      - exists e. apply elem_of_app. right.
        apply list_elem_of_fmap. by exists (Ev_async_send y). }
    assert (Hhere : (e0, G_slice_free x) ∈ map (pair e) l
              → ∃ e', (e', Ev_async_send x) ∈ h0 ++ h1).
    { intros (a & [= -> <-] & Ha)%list_elem_of_fmap.
      destruct (Hinv x (Hfree x Ha)) as [e' He']. exists e'.
      apply elem_of_app. by left. }
    symmetry in E. apply app_eq_inv in E as [(k & -> & E2)|(k & E1 & E2)].
    + destruct (IH _ _ _ _ Hwf1 Hinv1 Hrun x k h2 e0 E2) as [e' He'].
      exists e'. by rewrite app_assoc.
    + destruct k as [|y k].
      * rewrite app_nil_r in E1. subst h1. simpl in E2. subst hr.
        destruct (IH _ _ _ _ Hwf1 Hinv1 Hrun x [] h2 e0 eq_refl) as [e' He'].
        exists e'. by rewrite app_nil_r in He'.
      * injection E2 as <- ->. apply Hhere. rewrite E1.
        apply elem_of_app. right. apply list_elem_of_here.
Qed.

(** X17: a client is torn down only on request: in every run of the loop
    from the start of the worker, each release of a client record is
    preceded in the history by an [ev_async_send] for that client. *)
Theorem teardown_only_on_request heartbeat evs w h h1 h2 e x :
  run count_t ONE_FORK_MAX_CONNECTION b evs (initial_world b heartbeat)
  = Some (w, h) →
  h = h1 ++ (e, G_slice_free x) :: h2 →
  ∃ e', (e', Ev_async_send x) ∈ h1.
Proof.
  intros Hrun E.
  apply (run_requests evs _ _ _ [] (well_formed_initial b heartbeat)) with
    (x := x) (h1 := h1) (h2 := h2) (e := e) in Hrun; [done| |done].
  intros y (c & Hc & _).
  assert (E0 : clients (initial_world b heartbeat) = ∅) by (by destruct b).
  by rewrite E0, lookup_empty in Hc.
Qed.

End Requests.

Lemma teardown_only_on_request_witness :
  ∃ e',
    (e', Ev_async_send O)
    ∈ map (pair (E_incoming (Some sample_sock) None 0))
        (Sock_accept (Some sample_sock) :: setup_calls O)
      ++ [(E_send O, Ev_async_send O)]
      ++ map (pair (E_async O))
           [Ev_io_stop O EV_READ; Ev_io_stop O EV_WRITE; Ev_async_stop O;
            Ev_timer_stop O; Close_Sock sample_sock; Connection_count_dec;
            Rtsp_session_free None; Interleaved_free_list O; G_queue_free O;
            G_byte_array_free O].
Proof.
  eapply (teardown_only_on_request size_t_64 4 Cooperative 0
            [E_incoming (Some sample_sock) None 0; E_send O; E_async O]).
  - vm_compute. reflexivity.
  - reflexivity.
Defined.

(** ** The worker's timer *)

Section WorkerTimer.

Variable count_t : Z → Z.
Variable ONE_FORK_MAX_CONNECTION : Z.

Lemma run_reaps n : ∀ w,
  exit_status w = None →
  armed (loop_timer (srv w)) →
  ∃ w' h,
    run count_t ONE_FORK_MAX_CONNECTION TRISOS (replicate n E_reap) w
    = Some (w', h)
    ∧ occurrences Ev_loop_timer_again h.*2 = n
    ∧ armed (loop_timer (srv w'))
    ∧ clients w' = clients w
    ∧ exit_status w' = None
    ∧ (zombies w = [] ∨ n ≠ O → zombies w' = []).
Proof.
  induction n as [|n IH]; intros w Hex Harm.
  - eexists _, _. split; [reflexivity|]. repeat (split; [done|]).
    by intros [?|?].
  - cbn [replicate run]. unfold loop_step. rewrite Hex. cbn [serve].
    pose proof Harm as (Hcb & Hrep & Hact). rewrite Hcb, Hact.
    destruct (reap_children_total count_t (zombies w) (S (length (zombies w))) w)
      as (w1 & acts & Hrun & H1 & H2 & H3 & H4 & H5 & H6 & H7 & H8 & H9 & H10
          & H11 & H12 & H13); [done|lia|].
    assert (Htw : timer_watcher_cb count_t w
      = Some ((), set_srv (set_loop_timer
                             (ev_timer_again_on (loop_timer (srv w1)))
                             (srv w1)) w1,
              acts ++ [Ev_loop_timer_again])).
    { unfold timer_watcher_cb. rewrite bind_run. unfold get_world at 1.
      rewrite bind_run, Hrun. reflexivity. }
    rewrite Htw.
    edestruct (IH (set_srv (set_loop_timer
                              (ev_timer_again_on (loop_timer (srv w1)))
                              (srv w1)) w1))
      as (w' & h & -> & I1 & I2 & I3 & I4 & I5).
    { world_fields. congruence. }
    { world_fields. rewrite H7. unfold armed, ev_timer_again_on.
      cbn [timer_cb timer_repeat timer_active set_timer_active].
      rewrite Hrep. by repeat split. }
    eexists _, _. split; [reflexivity|].
    split.
    { rewrite fmap_app, calls_of_tagged, !occurrences_app, I1.
      rewrite (occurrences_absent Ev_loop_timer_again acts).
      - reflexivity.
      - intros Hin. rewrite Forall_forall in H13. by destruct (H13 _ Hin). }
    split; [done|]. split; [by rewrite I3|]. split; [done|].
    intros _. apply I5. by left.
Qed.

(** X18: once [loop_timer_init] has run, the reaper is periodic: each of
    [n] expiries of the worker's timer is served and re-arms it, so that
    after them the timer is still started with the reaper as callback and
    a period of 5 seconds; the clients are untouched and, after the first
    expiry, no terminated child is left. *)
Theorem reaper_stays_armed w n :
  exit_status w = None →
  ∃ w0 w' h,
    loop_timer_init w = Some ((), w0, [Ev_loop_timer_again])
    ∧ run count_t ONE_FORK_MAX_CONNECTION TRISOS (replicate n E_reap) w0
      = Some (w', h)
    ∧ occurrences Ev_loop_timer_again h.*2 = n
    ∧ armed (loop_timer (srv w'))
    ∧ clients w' = clients w
    ∧ (n ≠ O → zombies w' = []).
Proof.
  intros Hex.
  edestruct (run_reaps n) as (w' & h & Hrun & I1 & I2 & I3 & I4 & I5);
    cycle -1.
  - eexists _, w', h. split; [reflexivity|]. split; [exact Hrun|].
    split; [done|]. split; [done|]. split; [by rewrite I3|].
    intros Hn. apply I5. by right.
  - done.
  - by repeat split.
Qed.

End WorkerTimer.

Lemma reaper_stays_armed_witness :
  ∃ w0 w' h,
    loop_timer_init reaper_world = Some ((), w0, [Ev_loop_timer_again])
    ∧ run size_t_64 4 TRISOS (replicate 3 E_reap) w0 = Some (w', h)
    ∧ occurrences Ev_loop_timer_again h.*2 = 3%nat
    ∧ armed (loop_timer (srv w'))
    ∧ clients w' = clients reaper_world
    ∧ (3%nat ≠ O → zombies w' = []).
Proof.
  apply (reaper_stays_armed size_t_64 4 reaper_world 3).
  reflexivity.
Defined.
